(** * sp-probables: the extraction pipeline of [app.py]

    A shallow embedding of the text-processing part of [app.py]
    ([parse_pitcher_entry], [extract_dates_from_headers],
    [extract_pitcher_starts]) together with the library behaviour those
    functions rely on: Python's [re] on the two patterns of the file,
    [str.strip], [str.lower], [int], [datetime], [strftime], the tree
    searches of BeautifulSoup and the stable [list.sort].

    Text is a list of characters; a character is a code point below 256
    (Latin-1), classified the way CPython classifies it. *)

From Stdlib Require Import Ascii String ZArith Lia Sorted.
From stdpp Require Import base option list gmap.

Local Open Scope Z_scope.

(** ** Text *)

Abbreviation str := (list ascii).

(** A Python string literal. *)
Definition py (s : string) : str := list_ascii_of_string s.

Definition ord (c : ascii) : N := N_of_ascii c.

Definition in_range (lo hi : N) (c : ascii) : bool :=
  ((lo <=? ord c) && (ord c <=? hi))%N.

(** [str.isspace] on one character, which is also the class [\s] of [re]
    on a [str] pattern. *)
Definition is_space (c : ascii) : bool :=
  in_range 9 13 c || in_range 28 32 c || (ord c =? 133)%N || (ord c =? 160)%N.

(** The class [\d]. *)
Definition is_digit (c : ascii) : bool := in_range 48 57 c.

(** The class [[A-Z]]. *)
Definition is_AZ (c : ascii) : bool := in_range 65 90 c.

(** The class [[a-z]]. *)
Definition is_az (c : ascii) : bool := in_range 97 122 c.

(** The class [\w]: alphanumeric characters and the underscore. *)
Definition is_word (c : ascii) : bool :=
  is_AZ c || is_az c || is_digit c || (ord c =? 95)%N
  || (ord c =? 170)%N || in_range 178 179 c || (ord c =? 181)%N
  || in_range 185 186 c || in_range 188 190 c
  || in_range 192 214 c || in_range 216 246 c || in_range 248 255 c.

(** [str.lower] on one character. *)
Definition lower_char (c : ascii) : ascii :=
  if is_AZ c || in_range 192 214 c || in_range 216 222 c
  then ascii_of_N (ord c + 32)
  else c.

Definition lower (s : str) : str := map lower_char s.

Fixpoint lstrip (s : str) : str :=
  match s with
  | c :: s' => if is_space c then lstrip s' else s
  | [] => []
  end.

Definition rstrip (s : str) : str := rev (lstrip (rev s)).

(** [str.strip()] *)
Definition strip (s : str) : str := rstrip (lstrip s).

(** ** Regular expressions

    The fragment of [re] that the two patterns of [app.py] are written
    in.  Repetition is only ever applied to a character class, and is
    greedy. *)

Inductive regex : Type :=
  | Bol                                     (* ^ *)
  | Eol                                     (* $ *)
  | Chr (p : ascii -> bool)                 (* one character of a class *)
  | Rep (p : ascii -> bool) (lo : nat) (hi : option nat)
                                            (* p*, p+, p{n} *)
  | Opt (r : regex)                         (* r? *)
  | Group (n : nat) (r : regex)             (* ( r ), the n-th group *)
  | Cat (r1 r2 : regex).

Definition Lit (c : ascii) : regex := Chr (Ascii.eqb c).
Definition Star (p : ascii -> bool) : regex := Rep p 0 None.
Definition Plus (p : ascii -> bool) : regex := Rep p 1 None.
Definition Times (n : nat) (p : ascii -> bool) : regex := Rep p n (Some n).

Declare Scope regex_scope.
Delimit Scope regex_scope with re.
Bind Scope regex_scope with regex.
Infix "·" := Cat (at level 60, right associativity) : regex_scope.

(** The text captured by each group that took part in the match. *)
Abbreviation groups := (gmap nat str).

Definition newline : ascii := ascii_of_N 10.

Section Matcher.
Context {A : Type}.

(** Greedy repetition of a class: take as many characters as allowed,
    then give them back one at a time until the rest matches. *)
Fixpoint rep (p : ascii -> bool) (lo : nat) (hi : option nat)
    (pos : nat) (s : str) (k : nat -> str -> option A) : option A :=
  let stop := match lo with O => k pos s | S _ => None end in
  match s with
  | c :: s' =>
      if p c && negb (bool_decide (hi = Some O))
      then match rep p (pred lo) (pred <$> hi) (S pos) s' k with
           | Some x => Some x
           | None => stop
           end
      else stop
  | [] => stop
  end.

(** The backtracking matcher: [pos] is the offset of [s] in the subject,
    [g] the groups so far, [k] what remains to be matched. *)
Fixpoint run (r : regex) (pos : nat) (s : str) (g : groups)
    (k : nat -> str -> groups -> option A) : option A :=
  match r with
  | Bol => if bool_decide (pos = O) then k pos s g else None
  | Eol =>
      match s with
      | [] => k pos s g
      | [c] => if Ascii.eqb c newline then k pos s g else None
      | _ => None
      end
  | Chr p =>
      match s with
      | c :: s' => if p c then k (S pos) s' g else None
      | [] => None
      end
  | Rep p lo hi => rep p lo hi pos s (fun pos' s' => k pos' s' g)
  | Opt r1 =>
      match run r1 pos s g k with
      | Some x => Some x
      | None => k pos s g
      end
  | Group n r1 =>
      run r1 pos s g
        (fun pos' s' g' => k pos' s' (<[n := take (pos' - pos) s]> g'))
  | Cat r1 r2 =>
      run r1 pos s g (fun pos' s' g' => run r2 pos' s' g' k)
  end.
End Matcher.

(** [re.match(pattern, s)]: a match that starts at offset 0. *)
Definition re_match (r : regex) (s : str) : option groups :=
  run r O s ∅ (fun _ _ g => Some g).

(** [re.search(pattern, s)]: the match at the leftmost offset that has one. *)
Fixpoint search_from (r : regex) (pos : nat) (s : str) : option groups :=
  match run r pos s ∅ (fun _ _ g => Some g) with
  | Some g => Some g
  | None =>
      match s with
      | _ :: s' => search_from r (S pos) s'
      | [] => None
      end
  end.

Definition re_search (r : regex) (s : str) : option groups :=
  search_from r O s.

(** [m.group(n)], with [None] for a group that took no part. *)
Definition group (g : groups) (n : nat) : option str := g !! n.

(** ** [parse_pitcher_entry] *)

Record ParsedEntry : Type := {
  handedness : str;
  pitcher_name : str;
  formatted_opponent : str
}.

Definition is_letter (c : ascii) : bool := is_AZ c || is_az c.
Definition is_name_char (c : ascii) : bool := is_letter c || is_space c.
Definition is_LR (c : ascii) : bool := Ascii.eqb c "L" || Ascii.eqb c "R".

(** [r"^(@)?\s*([A-Z]{3})\s*([A-Za-z\s]+)\s*\(([LR])\)$"] *)
Definition pitcher_pattern : regex :=
  (Bol · Opt (Group 1 (Lit "@")) · Star is_space · Group 2 (Times 3 is_AZ)
   · Star is_space · Group 3 (Plus is_name_char) · Star is_space
   · Lit "(" · Group 4 (Chr is_LR) · Lit ")" · Eol)%re.

(** Groups 2, 3 and 4 take part in every match of [pitcher_pattern]
    (lemma [pitcher_pattern_inv] below), so their text is always there. *)
Definition parse_pitcher_entry (entry : str) : option ParsedEntry :=
  match re_match pitcher_pattern entry with
  | Some m =>
      Some {| handedness := default [] (group m 4);
              pitcher_name := strip (default [] (group m 3));
              formatted_opponent :=
                (if bool_decide (group m 1 = Some (py "@"))
                 then py "@" else py "v")
                ++ py " " ++ default [] (group m 2) |}
  | None => None
  end.

(** ** What the matcher accepts

    [matches r pos s1 s2 g g'] : at offset [pos], with [s1 ++ s2] ahead,
    [r] can consume [s1] and turn the groups [g] into [g'].  The matcher
    finds a match exactly when there is one that its continuation
    accepts. *)

Fixpoint matches (r : regex) (pos : nat) (s1 s2 : str) (g g' : groups) : Prop :=
  match r with
  | Bol => pos = O /\ s1 = [] /\ g' = g
  | Eol => s1 = [] /\ (s2 = [] \/ s2 = [newline]) /\ g' = g
  | Chr p => exists c, s1 = [c] /\ p c = true /\ g' = g
  | Rep p lo hi =>
      Forall (fun c => p c = true) s1 /\ (lo <= length s1)%nat
      /\ (forall h, hi = Some h -> (length s1 <= h)%nat) /\ g' = g
  | Opt r1 => matches r1 pos s1 s2 g g' \/ (s1 = [] /\ g' = g)
  | Group n r1 => exists g1, matches r1 pos s1 s2 g g1 /\ g' = <[n := s1]> g1
  | Cat r1 r2 =>
      exists a b g1, s1 = a ++ b /\ matches r1 pos a (b ++ s2) g g1
                     /\ matches r2 (pos + length a) b s2 g1 g'
  end.

(** ** The document tree

    What BeautifulSoup's [html.parser] tree offers to [app.py]: tags with
    a name, the classes of their [class] attribute and their children,
    and the text between them.  Comments and the like, which [get_text]
    passes over, are left out of the tree. *)

#[warnings="-register-all"] Inductive node : Type :=
  | NavigableString (text : str)
  | Tag (name : str) (classes : list str) (contents : list node).

(** [tag.descendants]: every node below, in document order. *)
Fixpoint descendants (n : node) : list node :=
  match n with
  | NavigableString _ => []
  | Tag _ _ cs => flat_map (fun c => c :: descendants c) cs
  end.

Definition is_tag (name : str) (n : node) : bool :=
  match n with
  | Tag nm _ _ => bool_decide (nm = name)
  | NavigableString _ => false
  end.

Definition has_class (cls : str) (n : node) : bool :=
  match n with
  | Tag _ cl _ => bool_decide (cls ∈ cl)
  | NavigableString _ => false
  end.

(** [tag.find(name)]: the first descendant with that name, or [None]. *)
Definition find (name : str) (n : node) : option node :=
  List.find (is_tag name) (descendants n).

(** [tag.find(name, class_=cls)] *)
Definition find_class (name cls : str) (n : node) : option node :=
  List.find (fun d => is_tag name d && has_class cls d) (descendants n).

(** [tag.find_all(name)] *)
Definition find_all (name : str) (n : node) : list node :=
  List.filter (is_tag name) (descendants n).

Definition string_of (n : node) : option str :=
  match n with
  | NavigableString s => Some s
  | Tag _ _ _ => None
  end.

Definition nonempty (s : str) : bool :=
  match s with [] => false | _ :: _ => true end.

(** [tag.get_text(strip=True)]: the strings below the tag, each one
    stripped, the empty ones dropped, joined without a separator. *)
Definition get_text_strip (n : node) : str :=
  concat (List.filter nonempty (map strip (omap string_of (descendants n)))).

(** ** Exceptions, the clock and the sequencing of both

    A computation reads the clock ([datetime.now()]) any number of times
    and either returns or raises.  [clock t] is the answer to the [t]-th
    reading of a run; the state is the number of readings made so far. *)

Inductive exn : Type := AttributeError | ValueError | OverflowError.

Inductive outcome (A : Type) : Type :=
  | Ok (a : A)
  | Raise (e : exn).
Arguments Ok {A} a.
Arguments Raise {A} e.

Record DateTime : Type := { dt_year : Z; dt_month : Z; dt_day : Z }.

Definition M (A : Type) : Type := nat -> outcome A * nat.

Definition ret {A} (a : A) : M A := fun t => (Ok a, t).
Definition raise {A} (e : exn) : M A := fun t => (Raise e, t).
Definition bind {A B} (m : M A) (f : A -> M B) : M B :=
  fun t => match m t with
           | (Ok a, t') => f a t'
           | (Raise e, t') => (Raise e, t')
           end.

Notation "x <- m ;; f" := (bind m (fun x => f))
  (at level 100, m at next level, right associativity).

(** [try: body / except ValueError: handler] *)
Definition try_except_ValueError {A} (body handler : M A) : M A :=
  fun t => match body t with
           | (Raise ValueError, t') => handler t'
           | r => r
           end.

(** [for x in l: s = body x s] *)
Fixpoint for_each {X S} (l : list X) (body : X -> S -> M S) (s : S) : M S :=
  match l with
  | [] => ret s
  | x :: l' => s' <- body x s ;; for_each l' body s'
  end.

(** [enumerate(l, start)] *)
Fixpoint enumerate {X} (l : list X) (start : Z) : list (Z * X) :=
  match l with
  | [] => []
  | x :: l' => (start, x) :: enumerate l' (start + 1)
  end.

(** ** Dates *)

Definition is_leap (y : Z) : bool :=
  (y mod 4 =? 0) && (negb (y mod 100 =? 0) || (y mod 400 =? 0)).

Definition days_in_month (y m : Z) : Z :=
  if m =? 2 then (if is_leap y then 29 else 28)
  else if (m =? 4) || (m =? 6) || (m =? 9) || (m =? 11) then 30
  else 31.

(** The largest C [int], the type the arguments of [datetime] are
    converted to. *)
Definition INT_MAX : Z := 2147483647.

Definition fits_int (z : Z) : bool := (- INT_MAX - 1 <=? z) && (z <=? INT_MAX).

(** [datetime(year, month, day)]: [OverflowError] for an argument that
    is no C [int], [ValueError] for one out of range. *)
Definition datetime (y m d : Z) : outcome DateTime :=
  if negb (fits_int y && fits_int m && fits_int d) then Raise OverflowError
  else if negb ((1 <=? y) && (y <=? 9999)) then Raise ValueError
  else if negb ((1 <=? m) && (m <=? 12)) then Raise ValueError
  else if negb ((1 <=? d) && (d <=? days_in_month y m)) then Raise ValueError
  else Ok {| dt_year := y; dt_month := m; dt_day := d |}.

Definition digit_char (d : Z) : ascii := ascii_of_N (48 + Z.to_N d).

Fixpoint decimal_aux (fuel : nat) (n : Z) (acc : str) : str :=
  let acc' := digit_char (n mod 10) :: acc in
  match fuel with
  | O => acc'
  | S fuel' => if n <? 10 then acc' else decimal_aux fuel' (n / 10) acc'
  end.

(** The decimal digits of [n >= 0]. *)
Definition decimal (n : Z) : str := decimal_aux (Z.to_nat n) n [].

Definition two_digits (n : Z) : str :=
  [digit_char (n / 10 mod 10); digit_char (n mod 10)].

(** [d.strftime("%Y-%m-%d")], the year printed the way the C library
    prints it: its decimal digits, four of them from the year 1000 on. *)
Definition strftime_Ymd (d : DateTime) : str :=
  decimal (dt_year d) ++ py "-" ++ two_digits (dt_month d)
  ++ py "-" ++ two_digits (dt_day d).

Definition digit_value (c : ascii) : Z := Z.of_N (ord c) - 48.

(** The longest string of digits [int] converts. *)
Definition int_max_str_digits : nat := 4300.

(** [int(s)] on a string of digits, the only strings [app.py] passes
    to it; anything else is taken to be a [ValueError]. *)
Definition int (s : str) : outcome Z :=
  if nonempty s && forallb is_digit s
     && bool_decide (length s <= int_max_str_digits)%nat
  then Ok (fold_left (fun acc c => 10 * acc + digit_value c) s 0)
  else Raise ValueError.

(** [s.split("/")] *)
Fixpoint split_slash (s : str) : list str :=
  match s with
  | [] => [[]]
  | c :: s' =>
      if Ascii.eqb c "/" then [] :: split_slash s'
      else match split_slash s' with
           | w :: ws => (c :: w) :: ws
           | [] => [[c]]
           end
  end.

(** [r"(\w{3})\s*(\d+/\d+)"] *)
Definition date_pattern : regex :=
  (Group 1 (Times 3 is_word) · Star is_space
   · Group 2 (Plus is_digit · Lit "/" · Plus is_digit))%re.

(** ** [extract_dates_from_headers] and [extract_pitcher_starts] *)

(** A row of the resulting [DataFrame]. *)
Record Row : Type := {
  Date : str;
  Handedness : str;
  Pitcher : str;
  Opponent : str
}.

(** [a < b] on [str]: by code points, a proper prefix first. *)
Fixpoint str_ltb (a b : str) : bool :=
  match a, b with
  | _, [] => false
  | [], _ :: _ => true
  | x :: a', y :: b' =>
      if (ord x <? ord y)%N then true
      else if (ord y <? ord x)%N then false
      else str_ltb a' b'
  end.

(** [list.sort(key=...)] is a stable sort that compares keys with [<].
    Insertion from the right, each element placed before the first one
    whose key is not smaller, is such a sort. *)
Fixpoint insert_by {X} (key : X -> str) (x : X) (l : list X) : list X :=
  match l with
  | [] => [x]
  | y :: l' =>
      if str_ltb (key y) (key x) then y :: insert_by key x l'
      else x :: y :: l'
  end.

Definition list_sort {X} (key : X -> str) (l : list X) : list X :=
  foldr (insert_by key) [] l.

(** [x.attr] where [x] may be [None]. *)
Definition getattr {A} (o : option node) (f : node -> A) : M A :=
  match o with
  | Some n => ret (f n)
  | None => raise AttributeError
  end.

Definition lift {A} (r : outcome A) : M A := fun t => (r, t).

(** [month, day = map(int, parts)] *)
Definition unpack_ints (parts : list str) : M (Z * Z) :=
  match parts with
  | [a; b] => month <- lift (int a) ;; day <- lift (int b) ;; ret (month, day)
  | _ => raise ValueError
  end.

(** [d.get(k, default)] *)
Definition dict_get (d : gmap Z str) (k : Z) (dflt : str) : str :=
  default dflt (d !! k).

Section Pipeline.
(** The answers of [datetime.now()], in the order of the calls. *)
Variable clock : nat -> DateTime.

Definition datetime_now : M DateTime := fun t => (Ok (clock t), S t).

(** The body of the loop over the header cells (lines 79-101). *)
Definition header_step (item : Z * node) (dates : gmap Z str) : M (gmap Z str) :=
  let '(idx, th) := item in
  match re_search date_pattern (get_text_strip th) with
  | Some date_match =>
      let month_day := default [] (group date_match 2) in
      try_except_ValueError
        (md <- unpack_ints (split_slash month_day) ;;
         let '(month, day) := md in
         now1 <- datetime_now ;;
         let current_year := dt_year now1 in
         now2 <- datetime_now ;;
         let year := if month <? dt_month now2 then current_year + 1
                     else current_year in
         date_obj <- lift (datetime year month day) ;;
         ret (<[idx := strftime_Ymd date_obj]> dates))
        (ret dates)
  | None => ret dates
  end.

Definition extract_dates_from_headers (soup : node) : M (gmap Z str) :=
  div <- ret (find_class (py "div") (py "table-scroll") soup) ;;
  table <- getattr div (find (py "table")) ;;
  tbody <- getattr table (find (py "tbody")) ;;
  header_row <- getattr tbody (find (py "tr")) ;;
  ths <- getattr header_row (find_all (py "th")) ;;
  for_each (enumerate (drop 1 ths) 1) header_step ∅.

(** The body of the loop over the cells of one row (lines 149-164). *)
Definition cell_step (player_names : list str) (date_mapping : gmap Z str)
    (cell : Z * str) (row_entries : list Row) : list Row :=
  let '(col_idx, item) := cell in
  match parse_pitcher_entry item with
  | Some parsed_entry =>
      if bool_decide (player_names = [])
         || bool_decide (lower (pitcher_name parsed_entry) ∈ player_names)
      then row_entries ++
           [ {| Date := dict_get date_mapping (col_idx - 1) (py "Unknown");
                Handedness := handedness parsed_entry;
                Pitcher := pitcher_name parsed_entry;
                Opponent := formatted_opponent parsed_entry |} ]
      else row_entries
  | None => row_entries
  end.

(** The body of the loop over the rows (lines 144-167). *)
Definition row_step (player_names : list str) (date_mapping : gmap Z str)
    (tr : node) (parsed_rows : list Row) : list Row :=
  let row_data := map get_text_strip (find_all (py "td") tr) in
  let row_entries :=
    fold_left (fun acc cell => cell_step player_names date_mapping cell acc)
              (enumerate row_data 1) [] in
  parsed_rows ++ row_entries.

(** The rows of the returned [DataFrame] and the texts passed to
    [st.warning].  The list [headers] of line 137 is built from texts
    and never read; it is left out. *)
Definition extract_pitcher_starts (soup : node) (player_names : list str)
    : M (list Row * list str) :=
  match find_class (py "div") (py "table-scroll") soup with
  | None => ret ([], [py "Could not find table with class 'table-scroll'"])
  | Some table_div =>
      match find (py "table") table_div with
      | None => ret ([], [py "No table found within the 'table-scroll' div"])
      | Some table =>
          date_mapping <- extract_dates_from_headers soup ;;
          let parsed_rows :=
            fold_left (fun acc tr => row_step player_names date_mapping tr acc)
                      (drop 1 (find_all (py "tr") table)) [] in
          ret (list_sort Date parsed_rows, [])
      end
  end.

(** One call of [extract_pitcher_starts] from a fresh clock. *)
Definition run_extract (soup : node) (player_names : list str)
    : outcome (list Row * list str) :=
  fst (extract_pitcher_starts soup player_names O).
End Pipeline.

(** ** Sample documents *)

Definition text (s : string) : node := NavigableString (py s).
Definition elem (name : string) (cs : list node) : node := Tag (py name) [] cs.
Definition th (s : string) : node := elem "th" [text s].
Definition td (s : string) : node := elem "td" [text s].

(** [<div class="table-scroll"> ... </div>] at the top of a document. *)
Definition page (inside : list node) : node :=
  Tag (py "[document]") [] [Tag (py "div") [py "table-scroll"] inside].

(** A grid with a [tbody]: one header row, then the data rows. *)
Definition grid (header : list node) (rows : list (list node)) : node :=
  page [elem "table" [elem "tbody" (elem "tr" header :: map (elem "tr") rows)]].

(** A clock that stands still. *)
Definition at_date (y m d : Z) : nat -> DateTime :=
  fun _ => {| dt_year := y; dt_month := m; dt_day := d |}.

Definition row (date hand pitcher opp : string) : Row :=
  {| Date := py date; Handedness := py hand; Pitcher := py pitcher;
     Opponent := py opp |}.

(** ** The entry grammar, in the words of its description

    An entry: the away marker or nothing, whitespace, three upper-case
    letters, a name of letters and whitespace, and [(L)] or [(R)]. *)

Definition entry_text (away : bool) (ws code name : str) (h : ascii) : str :=
  (if away then py "@" else []) ++ ws ++ code ++ name ++ py "(" ++ [h] ++ py ")".

Definition entry_ok (ws code name : str) (h : ascii) : bool :=
  forallb is_space ws
  && bool_decide (length code = 3%nat) && forallb is_AZ code
  && nonempty name && forallb is_name_char name
  && is_LR h.

(** What [parse_pitcher_entry] makes of such an entry. *)
Definition entry_parsed (away : bool) (code name : str) (h : ascii) : ParsedEntry :=
  {| handedness := [h];
     pitcher_name := strip name;
     formatted_opponent := (if away then py "@" else py "v") ++ py " " ++ code |}.

(** An entry that conforms to the grammar from start to end. *)
Definition conforms (s : str) : Prop :=
  exists away ws code name h,
    s = entry_text away ws code name h /\ entry_ok ws code name h = true.

(** ** The pipeline, in the words of its description *)

(** The table the rows are read from: the first [table] below the first
    [div] of class [table-scroll]. *)
Definition the_table (soup : node) : option node :=
  find_class (py "div") (py "table-scroll") soup ≫= find (py "table").

(** The header cells: the [th] cells of that table's first row, the
    first (label) cell left out. *)
Definition header_cells (soup : node) : option (list node) :=
  table ← the_table soup;
  tbody ← find (py "tbody") table;
  header_row ← find (py "tr") tbody;
  Some (drop 1 (find_all (py "th") header_row)).

(** The data rows of a table: all rows but the first. *)
Definition data_rows (table : node) : list node :=
  drop 1 (find_all (py "tr") table).

(** The texts of the cells of a row. *)
Definition row_cells (tr : node) : list str :=
  map get_text_strip (find_all (py "td") tr).

(** The cells of the data rows in the order they are met, row by row and
    column by column, each with its 1-based column index. *)
Definition data_cells (table : node) : list (Z * str) :=
  flat_map (fun tr => enumerate (row_cells tr) 1) (data_rows table).

(** The record of a parsed cell in column [k]. *)
Definition record_of (dates : gmap Z str) (k : Z) (e : ParsedEntry) : Row :=
  {| Date := match dates !! (k - 1) with Some d => d | None => py "Unknown" end;
     Handedness := handedness e;
     Pitcher := pitcher_name e;
     Opponent := formatted_opponent e |}.

(** One record for every successfully parsed cell, in encounter order. *)
Definition all_records (dates : gmap Z str) (table : node) : list Row :=
  omap (fun cell => record_of dates (fst cell) <$> parse_pitcher_entry (snd cell))
       (data_cells table).

(** The player filter: no names, or the lowercased pitcher among them. *)
Definition keeps (player_names : list str) (r : Row) : bool :=
  bool_decide (player_names = [])
  || bool_decide (lower (Pitcher r) ∈ player_names).

(** The year of a header date, from the year [Y] and the month [C] of
    the current date. *)
Definition infer_year (Y C month : Z) : Z :=
  if month <? C then Y + 1 else Y.

(** A calendar date of the years 1 to 9999. *)
Definition valid_date (y m d : Z) : bool :=
  (1 <=? y) && (y <=? 9999) && (1 <=? m) && (m <=? 12)
  && (1 <=? d) && (d <=? days_in_month y m).

(** The month and the day that the text [m/d] stands for. *)
Definition token_month_day (month_day : str) : option (Z * Z) :=
  match split_slash month_day with
  | [a; b] =>
      match int a, int b with
      | Ok m, Ok d => Some (m, d)
      | _, _ => None
      end
  | _ => None
  end.

(** The month/day of the leftmost date token of a header text. *)
Definition header_token (text : str) : option (Z * Z) :=
  g ← re_search date_pattern text;
  token_month_day (default [] (group g 2)).

(** The date a header text resolves to, if its leftmost token is a
    calendar date in the inferred year. *)
Definition resolve (Y C : Z) (text : str) : option str :=
  md ← header_token text;
  let y := infer_year Y C md.1 in
  if valid_date y md.1 md.2
  then Some (strftime_Ymd {| dt_year := y; dt_month := md.1; dt_day := md.2 |})
  else None.

(** A text holds a date token that is a calendar date: some part of it
    is matched by the date pattern and has a valid month and day. *)
Definition holds_valid_token (Y C : Z) (text : str) : Prop :=
  exists (pre tok post : str) (g : groups) m d,
    text = pre ++ tok ++ post
    /\ matches date_pattern (length pre) tok post ∅ g
    /\ token_month_day (default [] (group g 2)) = Some (m, d)
    /\ valid_date (infer_year Y C m) m d = true.

(** Ascending order of the keys, and the elements with a given key. *)
Definition sorted_by {X} (key : X -> str) (l : list X) : Prop :=
  forall i j x y, (i < j)%nat -> l !! i = Some x -> l !! j = Some y ->
                  str_ltb (key y) (key x) = false.

Definition with_key {X} (key : X -> str) (k : str) (l : list X) : list X :=
  List.filter (fun x => bool_decide (key x = k)) l.

(** One key is not after another. *)
Definition key_le {X} (key : X -> str) (x y : X) : Prop :=
  str_ltb (key y) (key x) = false.

(** ** The button of [main]

    What [main] does once the button is pressed (lines 202-224), given
    the text of the player text area and what [fetch_html] returned.  The
    widgets themselves, the network and the HTML parser are outside. *)

(** [s.split(sep)] for a separator of one character. *)
Fixpoint split_on (sep : ascii) (s : str) : list str :=
  match s with
  | [] => [[]]
  | c :: s' =>
      if Ascii.eqb c sep then [] :: split_on sep s'
      else match split_on sep s' with
           | w :: ws => (c :: w) :: ws
           | [] => [[c]]
           end
  end.

(** [[name.strip().lower() for name in player_names.split("\n")
      if name.strip()]] (lines 208-210) *)
Definition players_of (player_names : str) : list str :=
  map (fun name => lower (strip name))
      (List.filter (fun name => nonempty (strip name))
                   (split_on newline player_names)).

(** What the page shows. *)
Inductive ui : Type :=
  | Subheader (s : str)        (* st.subheader *)
  | Dataframe (rows : list Row) (* st.dataframe *)
  | Warning (s : str).         (* st.warning *)

Section Main.
Variable clock : nat -> DateTime.

(** Lines 207-224; the test [if not url] of line 203 is on a constant
    that is not empty.  A [BeautifulSoup] object is true, so [if
    html_soup] asks whether the fetch returned a document; a
    [DataFrame] built from a list of rows is [empty] when the list is. *)
Definition main_click (player_names : str) (html_soup : option node)
    : M (list ui) :=
  let players := players_of player_names in
  match html_soup with
  | Some soup =>
      res <- extract_pitcher_starts clock soup players ;;
      let '(pitcher_starts, warnings) := res in
      ret (map Warning warnings ++
           match pitcher_starts with
           | _ :: _ => [Subheader (py "Pitcher Starts"); Dataframe pitcher_starts]
           | [] => [Warning (py "No pitcher starts found")]
           end)
  | None => ret []
  end.
End Main.

(** ** Further notions used in the statements *)

(** A string without whitespace at either end. *)
Definition trimmed (s : str) : Prop :=
  (forall c, head s = Some c -> is_space c = false)
  /\ (forall c, last s = Some c -> is_space c = false).

(** The characters the entry pattern can consume. *)
Definition is_entry_char (c : ascii) : bool :=
  Ascii.eqb c "@" || is_name_char c || Ascii.eqb c "(" || Ascii.eqb c ")".

(** The value of a string of digits. *)
Definition digits_value (s : str) : Z :=
  fold_left (fun acc c => 10 * acc + digit_value c) s 0.

(** A string of digits that [int] converts. *)
Definition is_number (s : str) : bool :=
  nonempty s && forallb is_digit s
  && bool_decide (length s <= int_max_str_digits)%nat.

(** A text does not go on with a digit. *)
Definition no_digit_ahead (s : str) : bool :=
  match s with
  | c :: _ => negb (is_digit c)
  | [] => true
  end.
Example parse_away :
  parse_pitcher_entry (py "@ NYY John Smith (L)")
  = Some {| handedness := py "L"; pitcher_name := py "John Smith";
            formatted_opponent := py "@ NYY" |}.
Proof. vm_compute. reflexivity. Qed.

Example parse_home :
  parse_pitcher_entry (py "BOS Jane Doe (R)")
  = Some {| handedness := py "R"; pitcher_name := py "Jane Doe";
            formatted_opponent := py "v BOS" |}.
Proof. vm_compute. reflexivity. Qed.

Example parse_rejects :
  parse_pitcher_entry (py "") = None
  /\ parse_pitcher_entry (py "TBD") = None
  /\ parse_pitcher_entry (py "NYY") = None
  /\ parse_pitcher_entry (py "NYY(L)") = None
  /\ parse_pitcher_entry (py " @ NYY John Smith (L)") = None.
Proof. vm_compute. auto. Qed.

Section MatcherFacts.
Context {A : Type}.
Implicit Types (k : nat -> str -> groups -> option A).

Lemma rep_sound p (s : str) : forall lo hi pos (k : nat -> str -> option A) x,
  rep p lo hi pos s k = Some x ->
  exists s1 s2, s = s1 ++ s2 /\ Forall (fun c => p c = true) s1
    /\ (lo <= length s1)%nat /\ (forall h, hi = Some h -> (length s1 <= h)%nat)
    /\ k (pos + length s1)%nat s2 = Some x.
Proof.
  induction s as [|c s IH]; intros lo hi pos k x H; simpl in H.
  - destruct lo; [|discriminate]. exists [], []. simpl.
    rewrite Nat.add_0_r. repeat split; auto with lia.
  - assert (Hstop : match lo with O => k pos (c :: s) | S _ => None end = Some x ->
              exists s1 s2, c :: s = s1 ++ s2 /\ Forall (fun c => p c = true) s1
                /\ (lo <= length s1)%nat
                /\ (forall h, hi = Some h -> (length s1 <= h)%nat)
                /\ k (pos + length s1)%nat s2 = Some x).
    { destruct lo; [|discriminate]. intros Hk. exists [], (c :: s). simpl.
      rewrite Nat.add_0_r. repeat split; auto with lia. }
    destruct (p c) eqn:Hp; simpl in H; [|auto].
    case_bool_decide as Hhi; simpl in H; [auto|].
    destruct (rep p (pred lo) (pred <$> hi) (S pos) s k) as [y|] eqn:Hr; [|auto].
    inversion H; subst y; clear H.
    apply IH in Hr as (s1 & s2 & -> & Hall & Hlo & Hhi' & Hk).
    exists (c :: s1), s2. simpl. repeat split; auto with lia.
    + intros h ->. specialize (Hhi' (pred h) eq_refl).
      destruct h; [congruence|]. simpl in Hhi'. lia.
    + rewrite <- Hk. f_equal. lia.
Qed.

Lemma rep_complete p (s1 : str) : forall s2 lo hi pos (k : nat -> str -> option A) x,
  Forall (fun c => p c = true) s1 -> (lo <= length s1)%nat ->
  (forall h, hi = Some h -> (length s1 <= h)%nat) ->
  k (pos + length s1)%nat s2 = Some x ->
  exists y, rep p lo hi pos (s1 ++ s2) k = Some y.
Proof.
  induction s1 as [|c s1 IH]; intros s2 lo hi pos k x Hall Hlo Hhi Hk; simpl in *.
  - assert (lo = O) as -> by lia. rewrite Nat.add_0_r in Hk.
    destruct s2 as [|c s2]; simpl; [eauto|].
    destruct (p c && negb (bool_decide (hi = Some O))); [|eauto].
    destruct (rep p _ _ (S pos) s2 k); eauto.
  - apply Forall_cons in Hall as [Hc Hall]. rewrite Hc. simpl.
    case_bool_decide as Hz; simpl.
    { specialize (Hhi _ Hz). lia. }
    destruct (IH s2 (pred lo) (pred <$> hi) (S pos) k x) as [y Hy]; auto with lia.
    + intros h Hh. destruct hi as [h'|]; [|discriminate].
      simpl in Hh. inversion Hh; subst h. specialize (Hhi h' eq_refl). lia.
    + rewrite <- Hk. f_equal. lia.
    + rewrite Hy. eauto.
Qed.

Lemma run_sound r : forall pos (s : str) g k x,
  run r pos s g k = Some x ->
  exists s1 s2 g', s = s1 ++ s2 /\ matches r pos s1 s2 g g'
    /\ k (pos + length s1)%nat s2 g' = Some x.
Proof.
  induction r as [| |p|p lo hi|r IH|n r IH|r1 IH1 r2 IH2];
    intros pos s g k x H; simpl in H.
  - case_bool_decide; [|discriminate]. subst pos.
    exists [], s, g. simpl. auto.
  - destruct s as [|c [|c' s]]; try discriminate.
    + exists [], [], g. simpl. rewrite Nat.add_0_r. auto 6.
    + destruct (Ascii.eqb_spec c newline); [|discriminate]. subst c.
      exists [], [newline], g. simpl. rewrite Nat.add_0_r. auto 6.
  - destruct s as [|c s]; [discriminate|].
    destruct (p c) eqn:Hp; [|discriminate].
    exists [c], s, g. simpl. rewrite Nat.add_1_r. eauto 6.
  - apply rep_sound in H as (s1 & s2 & -> & ? & ? & ? & ?).
    exists s1, s2, g. simpl. auto 6.
  - destruct (run r pos s g k) as [y|] eqn:Hr.
    + inversion H; subst y. apply IH in Hr as (s1 & s2 & g' & ? & ? & ?).
      exists s1, s2, g'. simpl. auto.
    + exists [], s, g. simpl. rewrite Nat.add_0_r. auto.
  - apply IH in H as (s1 & s2 & g' & -> & Hm & Hk).
    exists s1, s2, (<[n := s1]> g'). simpl. split; [done|]. split; [eauto|].
    rewrite <- Hk. do 2 f_equal.
    replace (pos + length s1 - pos)%nat with (length s1) by lia.
    by rewrite take_app_length.
  - apply IH1 in H as (a & s' & g1 & -> & Hm1 & H).
    apply IH2 in H as (b & s2 & g2 & -> & Hm2 & Hk).
    exists (a ++ b), s2, g2. rewrite <- app_assoc. split; [done|]. split.
    + simpl. eauto 6.
    + rewrite <- Hk. f_equal. rewrite length_app. lia.
Qed.

Lemma run_complete r : forall pos (s1 s2 : str) g g' k x,
  matches r pos s1 s2 g g' ->
  k (pos + length s1)%nat s2 g' = Some x ->
  exists y, run r pos (s1 ++ s2) g k = Some y.
Proof.
  induction r as [| |p|p lo hi|r IH|n r IH|r1 IH1 r2 IH2];
    intros pos s1 s2 g g' k x Hm Hk; simpl in Hm.
  - destruct Hm as (-> & -> & ->). simpl in *. eauto.
  - destruct Hm as (-> & Hs2 & ->). simpl in *. rewrite Nat.add_0_r in Hk.
    destruct Hs2 as [-> | ->]; [eauto|].
    rewrite (proj2 (Ascii.eqb_eq _ _) eq_refl). eauto.
  - destruct Hm as (c & -> & Hp & ->). simpl in *. rewrite Hp.
    rewrite Nat.add_1_r in Hk. eauto.
  - destruct Hm as (Hall & Hlo & Hhi & ->). simpl.
    eapply (rep_complete p s1 s2 lo hi pos (fun pos' s' => k pos' s' g)); eauto.
  - simpl. destruct Hm as [Hm | (-> & ->)].
    + destruct (IH _ _ _ _ _ _ _ Hm Hk) as [y ->]. eauto.
    + simpl in *. rewrite Nat.add_0_r in Hk.
      destruct (run r pos s2 g k); eauto.
  - destruct Hm as (g1 & Hm & ->). simpl.
    eapply IH; [exact Hm|]. simpl.
    replace (pos + length s1 - pos)%nat with (length s1) by lia.
    rewrite take_app_length. exact Hk.
  - destruct Hm as (a & b & g1 & -> & Hm1 & Hm2). simpl.
    rewrite <- app_assoc.
    rewrite length_app, Nat.add_assoc in Hk.
    destruct (IH2 _ _ _ _ _ _ _ Hm2 Hk) as [y Hy].
    eapply IH1; [exact Hm1|]. simpl. exact Hy.
Qed.
End MatcherFacts.

(** [re.match] returns a match exactly when the pattern can consume a
    prefix of the subject, and then the groups are those of such a match. *)
Lemma re_match_Some r (s : str) g :
  re_match r s = Some g ->
  exists s1 s2, s = s1 ++ s2 /\ matches r O s1 s2 ∅ g.
Proof.
  intros H. apply run_sound in H as (s1 & s2 & g' & -> & Hm & Hk).
  inversion Hk; subst g'. eauto.
Qed.

Lemma re_match_None r (s1 s2 : str) g :
  re_match r (s1 ++ s2) = None -> ~ matches r O s1 s2 ∅ g.
Proof.
  intros H Hm.
  destruct (run_complete (A := groups) r O s1 s2 ∅ g (fun _ _ g => Some g) g Hm eq_refl)
    as [y Hy].
  unfold re_match in H. congruence.
Qed.

(** ** Lists of characters *)

Lemma forallb_Forall {X} (p : X -> bool) (l : list X) :
  forallb p l = true <-> Forall (fun c => p c = true) l.
Proof.
  rewrite forallb_forall, Forall_forall. setoid_rewrite list_elem_of_In. done.
Qed.

(** The first character outside a class is where it is. *)
Lemma span_unique (p : ascii -> bool) (l1 l2 : str) x y (r1 r2 : str) :
  forallb p l1 = true -> forallb p l2 = true -> p x = false -> p y = false ->
  l1 ++ x :: r1 = l2 ++ y :: r2 -> l1 = l2 /\ x = y /\ r1 = r2.
Proof.
  revert l2. induction l1 as [|a l1 IH]; intros [|b l2] H1 H2 Hx Hy E;
    simpl in *; simplify_eq.
  - done.
  - apply andb_true_iff in H2 as [? ?]. congruence.
  - apply andb_true_iff in H1 as [? ?]. congruence.
  - apply andb_true_iff in H1 as [? ?]. apply andb_true_iff in H2 as [? ?].
    destruct (IH l2) as (-> & -> & ->); auto.
Qed.

Lemma lstrip_spaces (w s : str) :
  forallb is_space w = true -> lstrip (w ++ s) = lstrip s.
Proof.
  induction w as [|c w IH]; simpl; [done|].
  intros [Hc Hw]%andb_true_iff. rewrite Hc. auto.
Qed.

Lemma lstrip_app_spaces (s w : str) :
  forallb is_space w = true ->
  lstrip (s ++ w) = lstrip s ++ w \/ (lstrip (s ++ w) = [] /\ lstrip s = []).
Proof.
  intros Hw. induction s as [|c s IH]; simpl.
  - right. split; [|done]. rewrite <- (app_nil_r w). by rewrite lstrip_spaces.
  - destruct (is_space c); auto.
Qed.

Lemma rstrip_spaces (s w : str) :
  forallb is_space w = true -> rstrip (s ++ w) = rstrip s.
Proof.
  intros Hw. unfold rstrip. rewrite rev_app_distr, lstrip_spaces; [done|].
  rewrite forallb_forall in *. intros c Hc. apply Hw. by apply in_rev.
Qed.

Lemma strip_spaces_l (w s : str) :
  forallb is_space w = true -> strip (w ++ s) = strip s.
Proof. intros Hw. unfold strip. by rewrite lstrip_spaces. Qed.

Lemma strip_spaces_r (s w : str) :
  forallb is_space w = true -> strip (s ++ w) = strip s.
Proof.
  intros Hw. unfold strip.
  destruct (lstrip_app_spaces s w Hw) as [-> | [-> ->]]; [|done].
  by apply rstrip_spaces.
Qed.

Lemma strip_all_spaces (w : str) : forallb is_space w = true -> strip w = [].
Proof.
  intros Hw. rewrite <- (app_nil_r w). by rewrite strip_spaces_l.
Qed.

(** ** The shape of the entries [parse_pitcher_entry] accepts *)

Lemma pitcher_pattern_inv (s1 s2 : str) (g : groups) :
  matches pitcher_pattern O s1 s2 ∅ g ->
  exists away w1 code w2 nm w3 h,
    s1 = entry_text away w1 code (w2 ++ nm ++ w3) h
    /\ forallb is_space w2 = true /\ forallb is_space w3 = true
    /\ entry_ok w1 code nm h = true
    /\ (s2 = [] \/ s2 = [newline])
    /\ g !! 1%nat = (if away then Some (py "@") else None)
    /\ g !! 2%nat = Some code /\ g !! 3%nat = Some nm /\ g !! 4%nat = Some [h].
Proof.
  unfold pitcher_pattern, Lit, Star, Plus, Times. cbn [matches]. intros H.
  repeat match goal with
         | H : exists _, _ |- _ => destruct H
         | H : _ /\ _ |- _ => destruct H
         end; subst.
  repeat match goal with
         | H : Forall _ _ |- _ => apply forallb_Forall in H
         | H : Ascii.eqb _ _ = true |- _ => apply Ascii.eqb_eq in H; subst
         end.
  match goal with
  | Hw1 : forallb is_space ?w1 = true, Hc : forallb is_AZ ?code = true,
    Hlen : forall h, Some 3%nat = Some h -> (length ?code <= h)%nat,
    Hw2 : forallb is_space ?w2 = true, Hn : forallb is_name_char ?nm = true,
    Hw3 : forallb is_space ?w3 = true, Hh : is_LR ?h = true,
    Hopt : _ \/ _ |- _ =>
      specialize (Hlen _ eq_refl);
      assert (Hok : entry_ok w1 code nm h = true)
        by (unfold entry_ok; rewrite Hw1, Hc, Hn, Hh, bool_decide_eq_true_2 by lia;
            destruct nm; simpl in *; [lia | done]);
      destruct Hopt as [(g1 & (c & -> & Hc' & ->) & ->) | [-> ->]];
      [ apply Ascii.eqb_eq in Hc'; subst c; exists true, w1, code, w2, nm, w3, h
      | exists false, w1, code, w2, nm, w3, h ];
      (split; [unfold entry_text; simpl; rewrite ?app_nil_r, <- ?app_assoc; reflexivity|])
  end.
  all: split_and!; try done; by simplify_map_eq.
Qed.
Lemma entry_ok_inv ws code name h :
  entry_ok ws code name h = true ->
  forallb is_space ws = true /\ length code = 3%nat /\ forallb is_AZ code = true
  /\ name <> [] /\ forallb is_name_char name = true /\ is_LR h = true.
Proof.
  unfold entry_ok. rewrite !andb_true_iff, bool_decide_eq_true.
  intros [[[[[? ?] ?] Hn] ?] ?]. split_and!; try done. by destruct name.
Qed.

Lemma pitcher_rest_intro pos g ws code name h (tail : str) :
  entry_ok ws code name h = true -> tail = [] \/ tail = [newline] ->
  exists g',
    matches (Star is_space · Group 2 (Times 3 is_AZ) · Star is_space
             · Group 3 (Plus is_name_char) · Star is_space
             · Lit "(" · Group 4 (Chr is_LR) · Lit ")" · Eol)%re
      pos (ws ++ code ++ name ++ py "(" ++ [h] ++ py ")") tail g g'.
Proof.
  intros (Hws & Hlen & Hcode & Hne & Hname & Hh)%entry_ok_inv Htail.
  unfold Lit, Star, Plus, Times. cbn [matches]. eexists.
  eexists ws, _, _. split; [reflexivity|]. split.
  { split_and!; [by apply forallb_Forall | lia | done | done]. }
  eexists code, _, _. split; [reflexivity|]. split.
  { eexists. split; [|reflexivity].
    split_and!; [by apply forallb_Forall | lia | | done].
    intros ? [= <-]. lia. }
  eexists [], _, _. split; [reflexivity|]. split.
  { split_and!; [constructor | simpl; lia | done | done]. }
  eexists name, _, _. split; [reflexivity|]. split.
  { eexists. split; [|reflexivity].
    split_and!; [by apply forallb_Forall | destruct name; simpl; [done|lia] | done | done]. }
  eexists [], _, _. split; [reflexivity|]. split.
  { split_and!; [constructor | simpl; lia | done | done]. }
  eexists [_], _, _. split; [reflexivity|]. split.
  { eexists. split_and!; done. }
  eexists [h], _, _. split; [reflexivity|]. split.
  { eexists. split; [|reflexivity]. exists h. done. }
  eexists [_], [], _. split; [reflexivity|]. split.
  { eexists. split_and!; done. }
  split_and!; done.
Qed.

Lemma pitcher_pattern_intro away ws code name h (tail : str) :
  entry_ok ws code name h = true -> tail = [] \/ tail = [newline] ->
  exists g, matches pitcher_pattern O (entry_text away ws code name h) tail ∅ g.
Proof.
  intros Hok Htail. unfold pitcher_pattern, entry_text.
  destruct away.
  - destruct (pitcher_rest_intro 1 (<[1%nat := py "@"]> ∅) ws code name h tail Hok Htail)
      as [g Hg].
    exists g. cbn [matches]. eexists [], _, _. split; [reflexivity|]. split; [done|].
    eexists (py "@"), _, _. split; [reflexivity|]. split; [|exact Hg].
    left. eexists. split; [|reflexivity]. exists "@"%char. done.
  - destruct (pitcher_rest_intro 0 ∅ ws code name h tail Hok Htail) as [g Hg].
    exists g. cbn [matches]. eexists [], _, _. split; [reflexivity|]. split; [done|].
    eexists [], _, _. split; [reflexivity|]. split; [|exact Hg].
    right. done.
Qed.
Lemma AZ_not_space c : is_AZ c = true -> is_space c = false.
Proof. destruct c as [[] [] [] [] [] [] [] []]; vm_compute; congruence. Qed.

Lemma AZ_not_at c : is_AZ c = true -> c <> "@"%char.
Proof. intros H ->. vm_compute in H. discriminate. Qed.

Lemma space_not_at c : is_space c = true -> c <> "@"%char.
Proof. intros H ->. vm_compute in H. discriminate. Qed.

Lemma space_is_name_char c : is_space c = true -> is_name_char c = true.
Proof. unfold is_name_char. intros ->. apply orb_true_r. Qed.

Lemma entry_text_unique a w c n h (t : str) a' w' c' n' h' (t' : str) :
  entry_ok w c n h = true -> entry_ok w' c' n' h' = true ->
  entry_text a w c n h ++ t = entry_text a' w' c' n' h' ++ t' ->
  a = a' /\ w = w' /\ c = c' /\ n = n' /\ h = h' /\ t = t'.
Proof.
  intros (Hw & Hlen & Hc & _ & Hn & _)%entry_ok_inv
         (Hw' & Hlen' & Hc' & _ & Hn' & _)%entry_ok_inv.
  destruct c as [|c0 [|c1 [|c2 [|]]]]; try discriminate.
  destruct c' as [|d0 [|d1 [|d2 [|]]]]; try discriminate.
  simpl in Hc, Hc'.
  apply andb_true_iff in Hc as [Hc0 _]. apply andb_true_iff in Hc' as [Hd0 _].
  unfold entry_text. intros E.
  assert (Ha : a = a' /\
    w ++ c0 :: [c1; c2] ++ n ++ py "(" ++ [h] ++ py ")" ++ t
    = w' ++ d0 :: [d1; d2] ++ n' ++ py "(" ++ [h'] ++ py ")" ++ t').
  { repeat rewrite <- app_assoc in E. simpl in E.
    destruct a, a'; simpl in E.
    - by simplify_eq.
    - exfalso. destruct w' as [|x w']; simpl in E; injection E as <- _.
      + by apply AZ_not_at in Hd0.
      + apply andb_true_iff in Hw' as [Hx _]. by apply space_not_at in Hx.
    - exfalso. destruct w as [|x w]; simpl in E; injection E as -> _.
      + by apply AZ_not_at in Hc0.
      + apply andb_true_iff in Hw as [Hx _]. by apply space_not_at in Hx.
    - done. }
  destruct Ha as [-> E'].
  apply span_unique with (p := is_space) in E' as (-> & -> & E');
    auto using AZ_not_space.
  simpl in E'. injection E' as -> -> E'.
  apply span_unique with (p := is_name_char) in E' as (-> & _ & E'); auto.
  by simplify_eq.
Qed.

(** [parse_pitcher_entry] accepts exactly the entries of the grammar with
    the away marker, if any, in first place, optionally followed by one
    newline; the name is all that stands between the code and the
    parenthesis. *)
Lemma parse_pitcher_entry_Some (entry : str) (e : ParsedEntry) :
  parse_pitcher_entry entry = Some e <->
  exists away ws code name h tail,
    entry = entry_text away ws code name h ++ tail
    /\ entry_ok ws code name h = true
    /\ (tail = [] \/ tail = [newline])
    /\ e = entry_parsed away code name h.
Proof.
  assert (Hfwd : forall entry e, parse_pitcher_entry entry = Some e ->
    exists away ws code name h tail,
      entry = entry_text away ws code name h ++ tail
      /\ entry_ok ws code name h = true
      /\ (tail = [] \/ tail = [newline])
      /\ e = entry_parsed away code name h).
  { clear. intros entry e. unfold parse_pitcher_entry.
    destruct (re_match pitcher_pattern entry) as [g|] eqn:Hm; [|discriminate].
    intros [= <-].
    apply re_match_Some in Hm as (s1 & s2 & -> & Hm).
    apply pitcher_pattern_inv in Hm
      as (away & w1 & code & w2 & nm & w3 & h & -> & Hw2 & Hw3 & Hok & Hs2
          & G1 & G2 & G3 & G4).
    exists away, w1, code, (w2 ++ nm ++ w3), h, s2.
    apply entry_ok_inv in Hok as (Hw1 & Hlen & Hc & Hne & Hn & Hh).
    split_and!; try done.
    - unfold entry_ok. rewrite Hw1, Hc, Hh, bool_decide_eq_true_2 by done.
      rewrite !forallb_app, Hn. simpl.
      assert (forall w, forallb is_space w = true -> forallb is_name_char w = true) as Hsp.
      { intros w Hw. rewrite forallb_forall in *. auto using space_is_name_char. }
      rewrite !Hsp by done. simpl.
      destruct w2; [|done]. destruct nm; done.
    - unfold entry_parsed, group. rewrite G1, G2, G3, G4. simpl.
      rewrite strip_spaces_l, strip_spaces_r by done.
      by destruct away. }
  split; [apply Hfwd|].
  intros (away & ws & code & name & h & tail & -> & Hok & Htail & ->).
  destruct (pitcher_pattern_intro away ws code name h tail Hok Htail) as [g Hg].
  destruct (re_match pitcher_pattern (entry_text away ws code name h ++ tail))
    as [g'|] eqn:Hm.
  - assert (exists e', parse_pitcher_entry (entry_text away ws code name h ++ tail) = Some e')
      as [e' He'] by (unfold parse_pitcher_entry; rewrite Hm; eauto).
    rewrite He'. f_equal.
    apply Hfwd in He' as (a' & w' & c' & n' & h' & t' & E & Hok' & _ & ->).
    apply entry_text_unique in E as (-> & -> & -> & -> & -> & ->); done.
  - by apply re_match_None with (g := g) in Hm.
Qed.
(** ** Claims about [parse_pitcher_entry] *)

(** A conforming entry followed by a single newline is accepted: [$]
    also matches just before a newline that ends the string. *)
Lemma trailing_newline_accepted :
  conforms (py "NYY John Smith (L)")
  /\ [newline] <> []
  /\ parse_pitcher_entry (py "NYY John Smith (L)" ++ [newline])
     = Some {| handedness := py "L"; pitcher_name := py "John Smith";
               formatted_opponent := py "v NYY" |}.
Proof.
  split_and!; [|done|by vm_compute].
  exists false, [], (py "NYY"), (py " John Smith "), "L"%char. by vm_compute.
Qed.

(** C7 (amended): a conforming entry followed by further text is
    rejected, unless that text is exactly one newline; the entry followed
    by one newline is parsed like the entry itself. *)
Theorem trailing_text_rejected (s t : str) :
  conforms s -> t <> [] ->
  (t <> [newline] -> parse_pitcher_entry (s ++ t) = None)
  /\ (t = [newline] -> parse_pitcher_entry (s ++ t) = parse_pitcher_entry s
                       /\ parse_pitcher_entry s <> None).
Proof.
  intros (a & w & c & n & h & -> & Hok) Hne.
  assert (Hs : forall tail, tail = [] \/ tail = [newline] ->
            parse_pitcher_entry (entry_text a w c n h ++ tail)
            = Some (entry_parsed a c n h)).
  { intros tail Htail. apply parse_pitcher_entry_Some.
    exists a, w, c, n, h, tail. done. }
  split.
  - intros Hnl.
    destruct (parse_pitcher_entry (entry_text a w c n h ++ t)) as [e|] eqn:He;
      [|done].
    apply parse_pitcher_entry_Some in He
      as (a' & w' & c' & n' & h' & t' & E & Hok' & Ht' & _).
    apply entry_text_unique in E as (_ & _ & _ & _ & _ & ->); [|done..].
    by destruct Ht'.
  - intros ->. rewrite (Hs [newline]) by auto.
    pose proof (Hs [] (or_introl eq_refl)) as H0. rewrite app_nil_r in H0.
    rewrite H0. done.
Qed.

Lemma trailing_text_rejected_witness :
  parse_pitcher_entry (py "NYY John Smith (L)" ++ py " x") = None.
Proof.
  apply (trailing_text_rejected (py "NYY John Smith (L)") (py " x")).
  - exists false, [], (py "NYY"), (py " John Smith "), "L"%char.
    split; reflexivity.
  - discriminate.
  - discriminate.
Defined.

(** With whitespace before the away marker the entry is rejected. *)
Lemma leading_space_rejected :
  forallb is_space (py " ") = true
  /\ entry_ok (py " ") (py "NYY") (py " John Smith ") "L" = true
  /\ parse_pitcher_entry (py " " ++ entry_text true (py " ") (py "NYY")
                            (py " John Smith ") "L") = None.
Proof. by vm_compute. Qed.

(** C8 (amended): the away marker in first place, then optional
    whitespace, the code, the name and the handedness marker: the entry is
    parsed, with opponent ["@ " + code]; with whitespace before the marker
    it is rejected. *)
Theorem away_marker_first (ws0 ws code name : str) (h : ascii) :
  forallb is_space ws0 = true -> entry_ok ws code name h = true ->
  match ws0 with
  | [] =>
      exists e, parse_pitcher_entry (ws0 ++ entry_text true ws code name h) = Some e
                /\ formatted_opponent e = py "@ " ++ code
                /\ handedness e = [h] /\ pitcher_name e = strip name
  | _ :: _ => parse_pitcher_entry (ws0 ++ entry_text true ws code name h) = None
  end.
Proof.
  intros Hws0 Hok. destruct ws0 as [|x ws0].
  - exists (entry_parsed true code name h). split; [|done].
    apply parse_pitcher_entry_Some. exists true, ws, code, name, h, [].
    rewrite app_nil_r. auto.
  - destruct (parse_pitcher_entry _) as [e|] eqn:He; [exfalso|done].
    apply parse_pitcher_entry_Some in He
      as (a' & w' & c' & n' & h' & t' & E & Hok' & _ & _).
    apply entry_ok_inv in Hok' as (Hw' & Hlen' & Hc' & _).
    simpl in Hws0. apply andb_true_iff in Hws0 as [Hx Hws0].
    destruct c' as [|d0 c']; [done|].
    simpl in Hc'. apply andb_true_iff in Hc' as [Hd0 _].
    unfold entry_text in E. destruct a'; simpl in E.
    + injection E as -> _. by apply space_not_at in Hx.
    + repeat rewrite <- app_assoc in E. simpl in E.
      change (x :: ws0 ++ "@"%char :: ws ++ code ++ name ++ "("%char :: h :: ")"%char :: [])
        with ((x :: ws0) ++ "@"%char :: ws ++ code ++ name ++ "("%char :: h :: ")"%char :: []) in E.
      apply span_unique with (p := is_space) in E as (_ & <- & _);
        auto using AZ_not_space.
      * by apply AZ_not_at in Hd0.
      * simpl. by rewrite Hx.
Qed.

Lemma away_marker_first_witness :
  exists e, parse_pitcher_entry (entry_text true (py " ") (py "NYY")
                                   (py " John Smith ") "L") = Some e
            /\ formatted_opponent e = py "@ NYY"
            /\ handedness e = py "L" /\ pitcher_name e = py "John Smith".
Proof.
  exact (away_marker_first [] (py " ") (py "NYY") (py " John Smith ") "L"
           eq_refl eq_refl).
Defined.
(** X20: a code followed only by whitespace and the handedness marker is
    an entry whose name is empty. *)
Lemma blank_name_parsed (code ws : str) (h : ascii) :
  entry_ok [] code ws h = true -> forallb is_space ws = true ->
  parse_pitcher_entry (code ++ ws ++ py "(" ++ [h] ++ py ")")
  = Some {| handedness := [h]; pitcher_name := [];
            formatted_opponent := py "v " ++ code |}.
Proof.
  intros Hok Hws. apply parse_pitcher_entry_Some.
  exists false, [], code, ws, h, []. rewrite app_nil_r.
  split_and!; auto. unfold entry_parsed. by rewrite strip_all_spaces.
Qed.

(** C9: the entry ["NYY  (L)"] is accepted with the empty string as
    pitcher name, and with no player names given the record of such a
    cell is part of the result. *)
Theorem empty_name_emitted :
  parse_pitcher_entry (py "NYY  (L)")
  = Some {| handedness := py "L"; pitcher_name := [];
            formatted_opponent := py "v NYY" |}
  /\ forall clock,
       run_extract clock
         (grid [th "Team"; th "TBD"] [[td "BOS"; td "NYY  (L)"]]) []
       = Ok ([row "Unknown" "L" "" "v NYY"], []).
Proof. split; [|intros clock]; by vm_compute. Qed.

(** ** The order of strings *)

Lemma ord_inj c d : ord c = ord d -> c = d.
Proof.
  unfold ord. intros H.
  rewrite <- (ascii_N_embedding c), <- (ascii_N_embedding d). by rewrite H.
Qed.

Lemma str_ltb_irrefl (a : str) : str_ltb a a = false.
Proof.
  induction a as [|x a IH]; simpl; [done|].
  destruct (N.ltb_spec (ord x) (ord x)); [lia|done].
Qed.

Lemma str_ltb_asym (a b : str) : str_ltb a b = true -> str_ltb b a = false.
Proof.
  revert b. induction a as [|x a IH]; intros [|y b]; simpl; try done.
  destruct (N.ltb_spec (ord x) (ord y)), (N.ltb_spec (ord y) (ord x));
    try done; try lia. auto.
Qed.

Lemma str_ltb_total (a b : str) :
  str_ltb a b = false -> str_ltb b a = false -> a = b.
Proof.
  revert b. induction a as [|x a IH]; intros [|y b]; simpl; try done.
  destruct (N.ltb_spec (ord x) (ord y)), (N.ltb_spec (ord y) (ord x));
    try done.
  intros Ha Hb. f_equal; [apply ord_inj; lia | auto].
Qed.

(** [a <= b] is [str_ltb b a = false]; it is transitive. *)
Lemma str_le_trans (a b c : str) :
  str_ltb b a = false -> str_ltb c b = false -> str_ltb c a = false.
Proof.
  revert b c. induction a as [|x a IH]; intros [|y b] [|z c]; simpl; try done.
  destruct (N.ltb_spec (ord y) (ord x)), (N.ltb_spec (ord x) (ord y)),
    (N.ltb_spec (ord z) (ord y)), (N.ltb_spec (ord y) (ord z)),
    (N.ltb_spec (ord z) (ord x)), (N.ltb_spec (ord x) (ord z));
    try done; try lia. eauto.
Qed.

(** ** [list.sort] *)

Section Sort.
Context {X : Type} (key : X -> str).

Lemma insert_by_perm x l : insert_by key x l ≡ₚ x :: l.
Proof.
  induction l as [|y l IH]; simpl; [done|].
  destruct (str_ltb (key y) (key x)); [|done].
  rewrite IH. apply Permutation_swap.
Qed.

Lemma list_sort_perm l : list_sort key l ≡ₚ l.
Proof.
  induction l as [|x l IH]; simpl; [done|].
  unfold list_sort in *. simpl. by rewrite insert_by_perm, IH.
Qed.

Lemma insert_by_sorted x l :
  StronglySorted (key_le key) l -> StronglySorted (key_le key) (insert_by key x l).
Proof.
  induction 1 as [|y l Hs IH Hall]; simpl.
  - repeat constructor.
  - destruct (str_ltb (key y) (key x)) eqn:Hlt.
    + constructor; [done|].
      rewrite insert_by_perm. constructor; [|done].
      unfold key_le. by apply str_ltb_asym.
    + constructor; [by constructor|].
      constructor; [done|].
      eapply Forall_impl; [exact Hall|].
      intros z Hz. unfold key_le in *. eapply str_le_trans; eauto.
Qed.

Lemma list_sort_sorted l : StronglySorted (key_le key) (list_sort key l).
Proof.
  induction l as [|x l IH]; simpl; [constructor|].
  by apply insert_by_sorted.
Qed.

Lemma StronglySorted_lookup (l : list X) i j x y :
  StronglySorted (key_le key) l -> (i < j)%nat ->
  l !! i = Some x -> l !! j = Some y -> key_le key x y.
Proof.
  intros Hs. revert i j. induction Hs as [|z l Hs IH Hall]; intros i j Hij Hi Hj.
  - done.
  - destruct j as [|j]; [lia|]. destruct i as [|i]; simpl in *.
    + simplify_eq. rewrite Forall_forall in Hall. apply Hall.
      by eapply list_elem_of_lookup_2.
    + apply (IH i j); auto with lia.
Qed.

Lemma list_sort_sorted_by l : sorted_by key (list_sort key l).
Proof.
  intros i j x y Hij Hi Hj.
  exact (StronglySorted_lookup _ i j x y (list_sort_sorted l) Hij Hi Hj).
Qed.

Lemma insert_by_with_key k x l :
  with_key key k (insert_by key x l) = with_key key k (x :: l).
Proof.
  unfold with_key. induction l as [|y l IH]; simpl; [done|].
  destruct (str_ltb (key y) (key x)) eqn:Hlt; [|done].
  simpl. rewrite IH. simpl.
  case_bool_decide as Hx; case_bool_decide as Hy; try done.
  subst k. rewrite <- Hy, str_ltb_irrefl in Hlt. done.
Qed.

(** The sort is stable: the elements of any one key keep their order. *)
Lemma list_sort_stable k l : with_key key k (list_sort key l) = with_key key k l.
Proof.
  induction l as [|x l IH]; [done|].
  change (list_sort key (x :: l)) with (insert_by key x (list_sort key l)).
  rewrite insert_by_with_key. unfold with_key in *. simpl. by rewrite IH.
Qed.
End Sort.
(** ** The loops of [extract_pitcher_starts] *)

Lemma elem_of_enumerate {X} (l : list X) (start k : Z) (x : X) :
  (k, x) ∈ enumerate l start <->
  start <= k /\ l !! Z.to_nat (k - start) = Some x.
Proof.
  revert start. induction l as [|y l IH]; intros start; simpl.
  - rewrite elem_of_nil. split; [done|]. by intros [_ ?].
  - rewrite elem_of_cons, IH. split.
    + intros [[= -> ->] | [Hle Hl]].
      * split; [lia|]. by rewrite Z.sub_diag.
      * split; [lia|].
        replace (Z.to_nat (k - start)) with (S (Z.to_nat (k - (start + 1)))) by lia.
        done.
    + intros [Hle Hl]. destruct (decide (k = start)) as [->|Hne].
      * rewrite Z.sub_diag in Hl. simpl in Hl. left. congruence.
      * right. split; [lia|].
        replace (Z.to_nat (k - start)) with (S (Z.to_nat (k - (start + 1)))) in Hl by lia.
        done.
Qed.

Lemma cell_step_spec names dates (cell : Z * str) (acc : list Row) :
  cell_step names dates cell acc
  = acc ++ List.filter (keeps names)
             (omap (fun c => record_of dates c.1 <$> parse_pitcher_entry c.2) [cell]).
Proof.
  destruct cell as [k item]. unfold cell_step. simpl.
  destruct (parse_pitcher_entry item) as [e|]; simpl; [|by rewrite app_nil_r].
  unfold keeps. simpl.
  destruct (bool_decide (names = []) || bool_decide (lower (pitcher_name e) ∈ names));
    [|by rewrite app_nil_r].
  unfold record_of, dict_get. by destruct (dates !! (k - 1)).
Qed.

Lemma cell_loop_spec names dates (cells : list (Z * str)) : forall acc : list Row,
  fold_left (fun acc cell => cell_step names dates cell acc) cells acc
  = acc ++ List.filter (keeps names)
             (omap (fun c => record_of dates c.1 <$> parse_pitcher_entry c.2) cells).
Proof.
  induction cells as [|cell cells IH]; intros acc; simpl fold_left.
  - by rewrite app_nil_r.
  - rewrite IH, cell_step_spec, <- app_assoc. f_equal.
    rewrite <- List.filter_app. f_equal.
    change (cell :: cells) with ([cell] ++ cells). by rewrite omap_app.
Qed.

Lemma row_loop_spec names dates (trs : list node) : forall acc : list Row,
  fold_left (fun acc tr => row_step names dates tr acc) trs acc
  = acc ++ List.filter (keeps names)
             (omap (fun c => record_of dates c.1 <$> parse_pitcher_entry c.2)
                   (flat_map (fun tr => enumerate (row_cells tr) 1) trs)).
Proof.
  induction trs as [|tr trs IH]; intros acc; simpl fold_left.
  - by rewrite app_nil_r.
  - rewrite IH. unfold row_step. rewrite cell_loop_spec. simpl.
    rewrite <- app_assoc. f_equal.
    rewrite omap_app, List.filter_app. done.
Qed.

(** What a call that returns has returned: a warning and no rows when
    there is no table, or else the kept records sorted by date. *)
Lemma extract_pitcher_starts_Ok clock soup names t rows w t' :
  extract_pitcher_starts clock soup names t = (Ok (rows, w), t') ->
  (the_table soup = None /\ rows = [] /\ w <> [])
  \/ (exists table dates,
        the_table soup = Some table
        /\ extract_dates_from_headers clock soup t = (Ok dates, t')
        /\ rows = list_sort Date (List.filter (keeps names) (all_records dates table))
        /\ w = []).
Proof.
  unfold extract_pitcher_starts, the_table.
  destruct (find_class (py "div") (py "table-scroll") soup) as [table_div|];
    cbn [mbind option_bind].
  2:{ unfold ret. intros ?; simplify_eq. left. done. }
  destruct (find (py "table") table_div) as [table|].
  2:{ unfold ret. intros ?; simplify_eq. left. done. }
  unfold bind, ret.
  destruct (extract_dates_from_headers clock soup t) as [[dates|e] t1]; [|done].
  intros ?; simplify_eq. right. exists table, dates. split_and!; try done.
  rewrite row_loop_spec. done.
Qed.
Lemma datetime_valid y m d :
  valid_date y m d = true ->
  datetime y m d = Ok {| dt_year := y; dt_month := m; dt_day := d |}.
Proof.
  unfold valid_date, datetime, fits_int, INT_MAX.
  rewrite !andb_true_iff, !Z.leb_le. intros [[[[[? ?] ?] ?] ?] Hd].
  assert (days_in_month y m <= 31).
  { unfold days_in_month. repeat case_match; lia. }
  repeat match goal with
         | |- context [?a <=? ?b] =>
             destruct (Z.leb_spec a b); try lia
         end.
  done.
Qed.

Lemma datetime_Ok y m d dt :
  datetime y m d = Ok dt ->
  valid_date y m d = true /\ dt = {| dt_year := y; dt_month := m; dt_day := d |}.
Proof.
  unfold valid_date, datetime.
  destruct (fits_int y && fits_int m && fits_int d); simpl; [|done].
  destruct ((1 <=? y) && (y <=? 9999)) eqn:Hy; simpl; [|done].
  destruct ((1 <=? m) && (m <=? 12)) eqn:Hm; simpl; [|done].
  destruct ((1 <=? d) && (d <=? days_in_month y m)) eqn:Hd; simpl; [|done].
  intros [= <-]. split; [|done].
  apply andb_true_iff in Hm as [Hm1 Hm2]. apply andb_true_iff in Hd as [Hd1 Hd2].
  rewrite ?Hm1, ?Hm2, ?Hd1, ?Hd2. done.
Qed.

Lemma datetime_ValueError y m d :
  datetime y m d = Raise ValueError -> valid_date y m d = false.
Proof.
  intros H. destruct (valid_date y m d) eqn:Hv; [|done].
  apply datetime_valid in Hv. congruence.
Qed.

(** One header cell: when the step returns, the date its text resolves
    to, with the year and the month of the two readings of the clock,
    has been entered under the index of the cell, or nothing has. *)
Lemma header_step_Ok clock idx th dates t dates' t' :
  header_step clock (idx, th) dates t = (Ok dates', t') ->
  dates' = match resolve (dt_year (clock t)) (dt_month (clock (S t)))
                         (get_text_strip th) with
           | Some s => <[idx := s]> dates
           | None => dates
           end.
Proof.
  unfold header_step, resolve, header_token.
  destruct (re_search date_pattern (get_text_strip th)) as [g|];
    cbn [mbind option_bind]; [|by intros [= <- <-]].
  unfold token_month_day, unpack_ints, try_except_ValueError.
  destruct (split_slash (default [] (group g 2))) as [|a [|b [|? ?]]];
    cbn [mbind option_bind]; try (by intros [= <- <-]).
  unfold bind, lift, ret, raise, datetime_now.
  destruct (int a) as [m|[]]; try (by intros [= <- <-]); try done.
  destruct (int b) as [d|[]]; try (by intros [= <- <-]); try done.
  cbn [fst snd mbind option_bind]. unfold infer_year.
  set (y := if m <? dt_month (clock (S t)) then dt_year (clock t) + 1
            else dt_year (clock t)).
  destruct (datetime y m d) as [dt|[]] eqn:Hdt; try done.
  - apply datetime_Ok in Hdt as [-> ->]. by intros [= <- <-].
  - apply datetime_ValueError in Hdt as ->. by intros [= <- <-].
Qed.
(** The lookups of [extract_dates_from_headers] find the header cells,
    and raise [AttributeError] when one of them finds nothing. *)
Lemma extract_dates_unfold clock soup t :
  extract_dates_from_headers clock soup t
  = match header_cells soup with
    | Some ths => for_each (enumerate ths 1) (header_step clock) ∅ t
    | None => (Raise AttributeError, t)
    end.
Proof.
  unfold extract_dates_from_headers, header_cells, the_table.
  destruct (find_class (py "div") (py "table-scroll") soup) as [div|];
    cbv [bind ret getattr raise]; cbn [mbind option_bind]; [|done].
  destruct (find (py "table") div) as [table|]; cbn [mbind option_bind]; [|done].
  destruct (find (py "tbody") table) as [tbody|]; cbn [mbind option_bind]; [|done].
  destruct (find (py "tr") tbody) as [tr|]; cbn [mbind option_bind]; done.
Qed.

Lemma header_loop_const clock Y C (l : list node) :
  (forall n, dt_year (clock n) = Y /\ dt_month (clock n) = C) ->
  forall start dates0 t dates t',
    for_each (enumerate l start) (header_step clock) dates0 t = (Ok dates, t') ->
    forall idx,
      dates !! idx
      = match (if decide (start <= idx) then l !! Z.to_nat (idx - start) else None)
              ≫= (fun th => resolve Y C (get_text_strip th)) with
        | Some s => Some s
        | None => dates0 !! idx
        end.
Proof.
  intros Hc. induction l as [|th l IH]; intros start dates0 t dates t' H idx.
  - simpl in H. injection H as <- <-. by case_decide.
  - cbn [for_each enumerate] in H. unfold bind in H.
    destruct (header_step clock (start, th) dates0 t) as [[dates1|e] t1] eqn:Hs;
      [|done].
    apply header_step_Ok in Hs.
    rewrite (proj1 (Hc t)), (proj2 (Hc (S t))) in Hs.
    rewrite (IH _ _ _ _ _ H idx).
    destruct (decide (idx = start)) as [->|Hne].
    + rewrite decide_False by lia. rewrite decide_True by lia.
      rewrite Z.sub_diag. cbn [mbind option_bind]. simpl.
      subst dates1. destruct (resolve Y C (get_text_strip th)); [|done].
      by rewrite lookup_insert_eq.
    + assert (dates1 !! idx = dates0 !! idx) as ->.
      { subst dates1. destruct (resolve Y C (get_text_strip th)); [|done].
        by rewrite lookup_insert_ne. }
      destruct (decide (start + 1 <= idx)).
      * rewrite decide_True by lia.
        replace (Z.to_nat (idx - start)) with (S (Z.to_nat (idx - (start + 1)))) by lia.
        done.
      * rewrite decide_False by lia. done.
Qed.

Lemma header_loop_gen clock (l : list node) :
  forall start dates0 t dates t',
    for_each (enumerate l start) (header_step clock) dates0 t = (Ok dates, t') ->
    forall idx s, dates !! idx = Some s ->
      dates0 !! idx = Some s
      \/ (start <= idx /\ exists th t1,
            l !! Z.to_nat (idx - start) = Some th
            /\ resolve (dt_year (clock t1)) (dt_month (clock (S t1)))
                       (get_text_strip th) = Some s).
Proof.
  induction l as [|th l IH]; intros start dates0 t dates t' H idx s Hidx.
  - simpl in H. injection H as <- <-. by left.
  - cbn [for_each enumerate] in H. unfold bind in H.
    destruct (header_step clock (start, th) dates0 t) as [[dates1|e] t1] eqn:Hs;
      [|done].
    apply header_step_Ok in Hs.
    destruct (IH _ _ _ _ _ H idx s Hidx) as [H1 | (Hle & th' & t2 & Hth & Hr)].
    + subst dates1.
      destruct (resolve _ _ (get_text_strip th)) as [s'|] eqn:Hr; [|by left].
      destruct (decide (idx = start)) as [->|Hne].
      * rewrite lookup_insert_eq in H1. injection H1 as ->.
        right. split; [lia|]. exists th, t. rewrite Z.sub_diag. done.
      * rewrite lookup_insert_ne in H1 by done. by left.
    + right. split; [lia|]. exists th', t2. split; [|done].
      replace (Z.to_nat (idx - start)) with (S (Z.to_nat (idx - (start + 1)))) by lia.
      done.
Qed.
(** [re.search] returns a match of some part of the subject. *)
Lemma search_from_sound r (s : str) : forall pos g,
  search_from r pos s = Some g ->
  exists pre tok post : str,
    s = pre ++ tok ++ post /\ matches r (pos + length pre) tok post ∅ g.
Proof.
  induction s as [|c s IH]; intros pos g; cbn [search_from];
    destruct (run r pos _ ∅ (fun _ _ g => Some g)) as [g'|] eqn:Hr;
    try discriminate.
  - intros [= <-]. apply run_sound in Hr as (s1 & s2 & g1 & E & Hm & [= <-]).
    exists [], s1, s2. rewrite Nat.add_0_r. done.
  - intros [= <-]. apply run_sound in Hr as (s1 & s2 & g1 & E & Hm & [= <-]).
    exists [], s1, s2. rewrite Nat.add_0_r. done.
  - intros H. apply IH in H as (pre & tok & post & -> & Hm).
    exists (c :: pre), tok, post. split; [done|].
    simpl. by rewrite Nat.add_succ_r.
Qed.

Lemma header_token_holds Y C (text : str) m d :
  header_token text = Some (m, d) ->
  valid_date (infer_year Y C m) m d = true ->
  holds_valid_token Y C text.
Proof.
  unfold header_token, re_search.
  destruct (search_from date_pattern 0 text) as [g|] eqn:Hs;
    cbn [mbind option_bind]; [|done].
  intros Ht Hv. apply search_from_sound in Hs as (pre & tok & post & -> & Hm).
  exists pre, tok, post, g, m, d. done.
Qed.

Lemma resolve_Some Y C (text s : str) :
  resolve Y C text = Some s <->
  exists m d, header_token text = Some (m, d)
              /\ valid_date (infer_year Y C m) m d = true
              /\ s = strftime_Ymd {| dt_year := infer_year Y C m;
                                     dt_month := m; dt_day := d |}.
Proof.
  unfold resolve. destruct (header_token text) as [[m d]|];
    cbn [mbind option_bind fst snd].
  - destruct (valid_date (infer_year Y C m) m d) eqn:Hv.
    + split; [intros [= <-]; eauto|].
      intros (m' & d' & [= <- <-] & _ & ->). done.
    + split; [done|]. intros (m' & d' & [= <- <-] & ? & _). congruence.
  - split; [done|]. by intros (? & ? & ? & _).
Qed.

(** ** Claims about the header dates *)

(** The header ["Mon 13/40 Tue 3/10"] holds the valid token ["Tue 3/10"],
    yet its column has no entry: only the leftmost token is looked at. *)
Lemma later_token_ignored :
  let soup := grid [th "Team"; th "Mon 13/40 Tue 3/10"] [] in
  exists dates cell,
    extract_dates_from_headers (at_date 2025 1 15) soup O = (Ok dates, 2%nat)
    /\ header_cells soup = Some [cell]
    /\ holds_valid_token 2025 1 (get_text_strip cell)
    /\ dates !! 1 = None.
Proof.
  intros soup. exists ∅, (th "Mon 13/40 Tue 3/10").
  split; [vm_compute; reflexivity|].
  split; [vm_compute; reflexivity|].
  split; [|done].
  pose (k := fun (_ : nat) (s : str) (g : groups) =>
               match s with [] => Some g | _ => None end).
  destruct (run date_pattern 10 (py "Tue 3/10") ∅ k) as [g|] eqn:Hr;
    [|by vm_compute in Hr].
  pose proof Hr as Hg. vm_compute in Hg. injection Hg as Hg.
  apply run_sound in Hr as (s1 & s2 & g' & E & Hm & Hk).
  unfold k in Hk. destruct s2; [|done]. injection Hk as ->.
  rewrite app_nil_r in E. subst s1.
  exists (py "Mon 13/40 "), (py "Tue 3/10"), [], g, 3, 10.
  split_and!; [by vm_compute | exact Hm | | by vm_compute].
  rewrite <- Hg. by vm_compute.
Qed.

(** C2 (amended): when the resolver returns a map, a column index is in
    it exactly when the leftmost date token of that column's header text
    is a calendar date in the inferred year; every other index is absent,
    and a header of an index that is present holds a valid token. *)
Theorem header_dates_leftmost_token clock Y C soup t dates t' :
  (forall n, dt_year (clock n) = Y /\ dt_month (clock n) = C) ->
  extract_dates_from_headers clock soup t = (Ok dates, t') ->
  exists ths,
    header_cells soup = Some ths
    /\ (forall idx,
          is_Some (dates !! idx) <->
          exists cell m d,
            1 <= idx /\ ths !! Z.to_nat (idx - 1) = Some cell
            /\ header_token (get_text_strip cell) = Some (m, d)
            /\ valid_date (infer_year Y C m) m d = true)
    /\ (forall idx,
          is_Some (dates !! idx) ->
          exists cell, ths !! Z.to_nat (idx - 1) = Some cell
                       /\ holds_valid_token Y C (get_text_strip cell)).
Proof.
  intros Hc H. rewrite extract_dates_unfold in H.
  destruct (header_cells soup) as [ths|]; [|done].
  exists ths. split; [done|].
  pose proof (header_loop_const clock Y C ths Hc _ _ _ _ _ H) as Hl.
  assert (Hiff : forall idx,
    is_Some (dates !! idx) <->
    exists cell m d,
      1 <= idx /\ ths !! Z.to_nat (idx - 1) = Some cell
      /\ header_token (get_text_strip cell) = Some (m, d)
      /\ valid_date (infer_year Y C m) m d = true).
  { intros idx. rewrite Hl, lookup_empty. case_decide as Hle.
    - destruct (ths !! Z.to_nat (idx - 1)) as [cell|]; cbn [mbind option_bind].
      + destruct (resolve Y C (get_text_strip cell)) as [s|] eqn:Hr.
        * apply resolve_Some in Hr as (m & d & ? & ? & _).
          split; [|by eauto]. intros _. exists cell, m, d. done.
        * split; [by intros [? ?]|].
          intros (cell' & m & d & _ & [= <-] & Ht & Hv).
          assert (is_Some (resolve Y C (get_text_strip cell))) as [? ?]; [|congruence].
          eexists. apply resolve_Some. eauto.
      + split; [by intros [? ?]|]. by intros (? & ? & ? & _ & ? & _).
    - split; [by intros [? ?]|]. intros (? & ? & ? & ? & _). lia. }
  split; [exact Hiff|].
  intros idx (cell & m & d & _ & Hcell & Ht & Hv)%Hiff.
  exists cell. split; [done|]. by eapply header_token_holds.
Qed.

Lemma header_dates_leftmost_token_witness :
  exists ths,
    header_cells (grid [th "Team"; th "Mon 3/10"; th "TBD"] []) = Some ths
    /\ (forall idx,
          is_Some (({[1 := py "2026-03-10"]} : gmap Z str) !! idx) <->
          exists cell m d,
            1 <= idx /\ ths !! Z.to_nat (idx - 1) = Some cell
            /\ header_token (get_text_strip cell) = Some (m, d)
            /\ valid_date (infer_year 2025 5 m) m d = true)
    /\ (forall idx,
          is_Some (({[1 := py "2026-03-10"]} : gmap Z str) !! idx) ->
          exists cell, ths !! Z.to_nat (idx - 1) = Some cell
                       /\ holds_valid_token 2025 5 (get_text_strip cell)).
Proof.
  apply (header_dates_leftmost_token (at_date 2025 5 1) 2025 5
           (grid [th "Team"; th "Mon 3/10"; th "TBD"] []) O _ 2%nat).
  - intros n. split; reflexivity.
  - vm_compute. reflexivity.
Defined.
(** C3: with a current date of year [Y] and month [C], the date entered
    for a header whose token reads month [M] and day [D] is that month
    and day of the year [Y + 1] when [M < C] and of the year [Y]
    otherwise; the day plays no part in the choice. *)
Theorem year_inference clock Y C soup t dates t' idx s :
  (forall n, dt_year (clock n) = Y /\ dt_month (clock n) = C) ->
  extract_dates_from_headers clock soup t = (Ok dates, t') ->
  dates !! idx = Some s ->
  exists ths cell M D,
    header_cells soup = Some ths
    /\ ths !! Z.to_nat (idx - 1) = Some cell
    /\ header_token (get_text_strip cell) = Some (M, D)
    /\ s = strftime_Ymd {| dt_year := if M <? C then Y + 1 else Y;
                           dt_month := M; dt_day := D |}.
Proof.
  intros Hc H Hs. rewrite extract_dates_unfold in H.
  destruct (header_cells soup) as [ths|]; [|done].
  pose proof (header_loop_const clock Y C ths Hc _ _ _ _ _ H idx) as Hl.
  rewrite Hs, lookup_empty in Hl. case_decide; [|done].
  destruct (ths !! Z.to_nat (idx - 1)) as [cell|] eqn:Hcell;
    cbn [mbind option_bind] in Hl; [|done].
  destruct (resolve Y C (get_text_strip cell)) as [s'|] eqn:Hr; [|done].
  injection Hl as ->.
  apply resolve_Some in Hr as (M & D & Ht & _ & ->).
  exists ths, cell, M, D. split_and!; done || reflexivity.
Qed.

Lemma year_inference_witness :
  exists ths cell M D,
    header_cells (grid [th "Team"; th "Mon 3/10"] []) = Some ths
    /\ ths !! Z.to_nat (1 - 1) = Some cell
    /\ header_token (get_text_strip cell) = Some (M, D)
    /\ py "2026-03-10"
       = strftime_Ymd {| dt_year := if M <? 5 then 2025 + 1 else 2025;
                         dt_month := M; dt_day := D |}.
Proof.
  apply (year_inference (at_date 2025 5 1) 2025 5
           (grid [th "Team"; th "Mon 3/10"] []) O {[1 := py "2026-03-10"]} 2%nat).
  - intros n. split; reflexivity.
  - vm_compute. reflexivity.
  - vm_compute. reflexivity.
Defined.

(** The header ["Mon 3/10"] read in May, in March and in January of 2025. *)
Example mon_3_10_next_year :
  extract_dates_from_headers (at_date 2025 5 1)
    (grid [th "Team"; th "Mon 3/10"] []) O
  = (Ok {[1 := py "2026-03-10"]}, 2%nat).
Proof. vm_compute. reflexivity. Qed.

Example mon_3_10_same_month :
  extract_dates_from_headers (at_date 2025 3 20)
    (grid [th "Team"; th "Mon 3/10"] []) O
  = (Ok {[1 := py "2025-03-10"]}, 2%nat).
Proof. vm_compute. reflexivity. Qed.

Example mon_3_10_this_year :
  extract_dates_from_headers (at_date 2025 1 1)
    (grid [th "Team"; th "Mon 3/10"] []) O
  = (Ok {[1 := py "2025-03-10"]}, 2%nat).
Proof. vm_compute. reflexivity. Qed.

(** ** Claims about the rows *)

Lemma elem_of_all_records dates table (r : Row) :
  r ∈ all_records dates table <->
  exists tr k item e,
    tr ∈ data_rows table /\ 1 <= k
    /\ row_cells tr !! Z.to_nat (k - 1) = Some item
    /\ parse_pitcher_entry item = Some e
    /\ r = record_of dates k e.
Proof.
  unfold all_records, data_cells. rewrite list_elem_of_omap. split.
  - intros ([k item] & Hin & Hr). cbn [fst snd] in Hr.
    apply list_elem_of_In, in_flat_map in Hin as (tr & Htr & Hin).
    apply list_elem_of_In in Htr.
    apply list_elem_of_In, elem_of_enumerate in Hin as [Hk Hitem].
    destruct (parse_pitcher_entry item) as [e|] eqn:He; [|done].
    injection Hr as <-. exists tr, k, item, e. done.
  - intros (tr & k & item & e & Htr & Hk & Hitem & He & ->).
    exists (k, item). cbn [fst snd]. rewrite He. split; [|done].
    apply list_elem_of_In, in_flat_map. exists tr. split.
    + by apply list_elem_of_In.
    + apply list_elem_of_In, elem_of_enumerate. done.
Qed.

Lemma elem_of_List_filter {X} (p : X -> bool) (l : list X) (x : X) :
  x ∈ List.filter p l <-> x ∈ l /\ p x = true.
Proof. rewrite !list_elem_of_In. apply filter_In. Qed.

(** C4: the record of a parsed cell in column [k] (counted from 1)
    carries the map's entry at [k - 1], or ["Unknown"] when there is none;
    the map's indices count the header cells from 1, the label cell left
    out. *)
Theorem date_lookup_offset clock soup names t rows w t' table :
  extract_pitcher_starts clock soup names t = (Ok (rows, w), t') ->
  the_table soup = Some table ->
  exists dates ths,
    extract_dates_from_headers clock soup t = (Ok dates, t')
    /\ header_cells soup = Some ths
    /\ (forall r, r ∈ rows <->
          exists tr k item e,
            tr ∈ data_rows table /\ 1 <= k
            /\ row_cells tr !! Z.to_nat (k - 1) = Some item
            /\ parse_pitcher_entry item = Some e
            /\ keeps names r = true
            /\ Date r = match dates !! (k - 1) with
                        | Some d => d
                        | None => py "Unknown"
                        end
            /\ Handedness r = handedness e /\ Pitcher r = pitcher_name e
            /\ Opponent r = formatted_opponent e)
    /\ (forall idx d, dates !! idx = Some d ->
          1 <= idx /\ exists cell,
            ths !! Z.to_nat (idx - 1) = Some cell
            /\ is_Some (header_token (get_text_strip cell))).
Proof.
  intros H Htable.
  apply extract_pitcher_starts_Ok in H
    as [(Hnone & _) | (table' & dates & Ht & Hd & -> & ->)]; [congruence|].
  assert (table' = table) as -> by congruence.
  pose proof Hd as Hd'. rewrite extract_dates_unfold in Hd'.
  destruct (header_cells soup) as [ths|]; [|done].
  exists dates, ths. split_and!; try done.
  - intros r. rewrite list_sort_perm, elem_of_List_filter, elem_of_all_records.
    split.
    + intros [(tr & k & item & e & ? & ? & ? & ? & ->) Hk].
      exists tr, k, item, e. done.
    + intros (tr & k & item & e & ? & ? & ? & ? & Hk & HD & HH & HP & HO).
      split; [|done]. exists tr, k, item, e. split_and!; try done.
      destruct r as [rd rh rp ro]. cbn [Date Handedness Pitcher Opponent] in *.
      unfold record_of. by subst.
  - intros idx d Hidx.
    destruct (header_loop_gen clock ths _ _ _ _ _ Hd' idx d Hidx)
      as [He | (Hle & cell & t1 & Hcell & Hr)].
    + by rewrite lookup_empty in He.
    + split; [done|]. exists cell. split; [done|].
      apply resolve_Some in Hr as (m & d' & -> & _). eauto.
Qed.

Lemma date_lookup_offset_witness :
  exists dates ths,
    extract_dates_from_headers (at_date 2025 5 1)
      (grid [th "Team"; th "Mon 3/10"] [[td "BOS"; td "@ NYY John Smith (L)"]]) O
    = (Ok dates, 2%nat)
    /\ header_cells
         (grid [th "Team"; th "Mon 3/10"] [[td "BOS"; td "@ NYY John Smith (L)"]])
       = Some ths
    /\ (forall r, r ∈ [row "2026-03-10" "L" "John Smith" "@ NYY"] <->
          exists tr k item e,
            tr ∈ data_rows (elem "table" [elem "tbody"
                   [elem "tr" [th "Team"; th "Mon 3/10"];
                    elem "tr" [td "BOS"; td "@ NYY John Smith (L)"]]])
            /\ 1 <= k
            /\ row_cells tr !! Z.to_nat (k - 1) = Some item
            /\ parse_pitcher_entry item = Some e
            /\ keeps [] r = true
            /\ Date r = match dates !! (k - 1) with
                        | Some d => d
                        | None => py "Unknown"
                        end
            /\ Handedness r = handedness e /\ Pitcher r = pitcher_name e
            /\ Opponent r = formatted_opponent e)
    /\ (forall idx d, dates !! idx = Some d ->
          1 <= idx /\ exists cell,
            ths !! Z.to_nat (idx - 1) = Some cell
            /\ is_Some (header_token (get_text_strip cell))).
Proof.
  apply (date_lookup_offset (at_date 2025 5 1)
           (grid [th "Team"; th "Mon 3/10"] [[td "BOS"; td "@ NYY John Smith (L)"]])
           [] O _ [] 2%nat).
  - vm_compute. reflexivity.
  - vm_compute. reflexivity.
Defined.
Lemma keeps_no_names (l : list Row) : List.filter (keeps []) l = l.
Proof.
  induction l as [|r l IH]; simpl; [done|]. by rewrite IH.
Qed.

Lemma keeps_names names (l : list Row) :
  names <> [] ->
  List.filter (keeps names) l
  = List.filter (fun r => bool_decide (lower (Pitcher r) ∈ names)) l.
Proof.
  intros Hne. apply List.filter_ext. intros r. unfold keeps.
  by rewrite bool_decide_eq_false_2.
Qed.

(** C5: with no player names the rows are the records of all the
    successfully parsed cells; with player names they are exactly the
    records among these whose lowercased pitcher name is one of the
    names (in both cases sorted by date). *)
Theorem player_filter clock soup names t rows w t' table :
  extract_pitcher_starts clock soup names t = (Ok (rows, w), t') ->
  the_table soup = Some table ->
  exists dates,
    extract_dates_from_headers clock soup t = (Ok dates, t')
    /\ (names = [] -> rows = list_sort Date (all_records dates table))
    /\ (names <> [] ->
        rows = list_sort Date
                 (List.filter (fun r => bool_decide (lower (Pitcher r) ∈ names))
                              (all_records dates table))).
Proof.
  intros H Htable.
  apply extract_pitcher_starts_Ok in H
    as [(Hnone & _) | (table' & dates & Ht & Hd & -> & ->)]; [congruence|].
  assert (table' = table) as -> by congruence.
  exists dates. split; [done|]. split.
  - intros ->. by rewrite keeps_no_names.
  - intros Hne. by rewrite keeps_names.
Qed.

Lemma player_filter_witness :
  exists dates,
    extract_dates_from_headers (at_date 2025 5 1)
      (grid [th "Team"; th "Mon 3/10"]
            [[td "BOS"; td "@ NYY John Smith (L)"]; [td "NYY"; td "BOS Jane Doe (R)"]]) O
    = (Ok dates, 2%nat)
    /\ ([py "jane doe"] = [] ->
        [row "2026-03-10" "R" "Jane Doe" "v BOS"]
        = list_sort Date (all_records dates
            (elem "table" [elem "tbody"
               [elem "tr" [th "Team"; th "Mon 3/10"];
                elem "tr" [td "BOS"; td "@ NYY John Smith (L)"];
                elem "tr" [td "NYY"; td "BOS Jane Doe (R)"]]])))
    /\ ([py "jane doe"] <> [] ->
        [row "2026-03-10" "R" "Jane Doe" "v BOS"]
        = list_sort Date
            (List.filter (fun r => bool_decide (lower (Pitcher r) ∈ [py "jane doe"]))
               (all_records dates
                  (elem "table" [elem "tbody"
                     [elem "tr" [th "Team"; th "Mon 3/10"];
                      elem "tr" [td "BOS"; td "@ NYY John Smith (L)"];
                      elem "tr" [td "NYY"; td "BOS Jane Doe (R)"]]])))).
Proof.
  apply (player_filter (at_date 2025 5 1)
           (grid [th "Team"; th "Mon 3/10"]
              [[td "BOS"; td "@ NYY John Smith (L)"]; [td "NYY"; td "BOS Jane Doe (R)"]])
           [py "jane doe"] O _ [] 2%nat).
  - vm_compute. reflexivity.
  - vm_compute. reflexivity.
Defined.

(** C6: the rows are in ascending order of their [Date], they are the
    kept records of the cells, and the rows of any one date stand in the
    order in which their cells are met, row by row and column by column. *)
Theorem sorted_and_stable clock soup names t rows w t' :
  extract_pitcher_starts clock soup names t = (Ok (rows, w), t') ->
  sorted_by Date rows
  /\ forall table, the_table soup = Some table ->
       exists dates,
         extract_dates_from_headers clock soup t = (Ok dates, t')
         /\ rows ≡ₚ List.filter (keeps names) (all_records dates table)
         /\ forall d, with_key Date d rows
                      = with_key Date d
                          (List.filter (keeps names) (all_records dates table)).
Proof.
  intros H.
  apply extract_pitcher_starts_Ok in H
    as [(Hnone & -> & _) | (table' & dates & Ht & Hd & -> & ->)].
  - split; [by intros i j x y _ Hi|]. intros table. congruence.
  - split; [apply list_sort_sorted_by|].
    intros table Htable. assert (table' = table) as -> by congruence.
    exists dates. split_and!; [done|apply list_sort_perm|].
    intros d. apply list_sort_stable.
Qed.

Lemma sorted_and_stable_witness :
  sorted_by Date [row "2026-03-10" "L" "John Smith" "@ NYY";
                  row "2026-03-10" "R" "Jane Doe" "v BOS";
                  row "Unknown" "L" "Al B" "v TOR"].
Proof.
  apply (sorted_and_stable (at_date 2025 5 1)
           (grid [th "Team"; th "TBD"; th "Mon 3/10"]
              [[td "BOS"; td "TOR Al B (L)"; td "@ NYY John Smith (L)"];
               [td "NYY"; td ""; td "BOS Jane Doe (R)"]])
           [] O _ [] 2%nat).
  vm_compute. reflexivity.
Defined.

Lemma str_equal_keys (a b : str) :
  str_ltb a b = false /\ str_ltb b a = false <-> a = b.
Proof.
  split; [intros [? ?]; by apply str_ltb_total|].
  intros ->. by rewrite str_ltb_irrefl.
Qed.
(** ** Resolved dates and ["Unknown"] *)

Lemma digit_char_is_digit d : 0 <= d <= 9 -> is_digit (digit_char d) = true.
Proof.
  intros Hd.
  assert (d = 0 \/ d = 1 \/ d = 2 \/ d = 3 \/ d = 4 \/ d = 5 \/ d = 6
          \/ d = 7 \/ d = 8 \/ d = 9) as Hc by lia.
  repeat (destruct Hc as [-> | Hc]; [by vm_compute|]). subst. by vm_compute.
Qed.

Lemma decimal_aux_head fuel : forall n acc,
  exists c rest, decimal_aux fuel n acc = c :: rest /\ is_digit c = true.
Proof.
  induction fuel as [|fuel IH]; intros n acc; simpl.
  - eexists _, _. split; [done|]. apply digit_char_is_digit.
    pose proof (Z.mod_pos_bound n 10). lia.
  - destruct (n <? 10); [|apply IH].
    eexists _, _. split; [done|]. apply digit_char_is_digit.
    pose proof (Z.mod_pos_bound n 10). lia.
Qed.

(** A date printed by [strftime] begins with a digit. *)
Lemma strftime_head dt :
  exists c rest, strftime_Ymd dt = c :: rest /\ is_digit c = true.
Proof.
  unfold strftime_Ymd, decimal.
  destruct (decimal_aux_head (Z.to_nat (dt_year dt)) (dt_year dt) [])
    as (c & rest & -> & Hc).
  eexists _, _. split; [reflexivity|done].
Qed.

(** A string that begins with a digit is before ["Unknown"]. *)
Lemma digit_before_Unknown c (rest : str) :
  is_digit c = true -> str_ltb (c :: rest) (py "Unknown") = true.
Proof.
  unfold is_digit, in_range. intros [_ Hc%N.leb_le]%andb_true_iff.
  change (py "Unknown") with ("U"%char :: py "nknown"). cbn [str_ltb].
  change (ord "U") with 85%N.
  destruct (N.ltb_spec (ord c) 85); [done|lia].
Qed.

(** Every entry of the map is a date printed by [strftime]. *)
Lemma extract_dates_values clock soup t dates t' idx s :
  extract_dates_from_headers clock soup t = (Ok dates, t') ->
  dates !! idx = Some s ->
  exists dt, s = strftime_Ymd dt.
Proof.
  intros H Hs. rewrite extract_dates_unfold in H.
  destruct (header_cells soup) as [ths|]; [|done].
  destruct (header_loop_gen clock ths _ _ _ _ _ H idx s Hs)
    as [He | (_ & cell & t1 & _ & Hr)].
  - by rewrite lookup_empty in He.
  - apply resolve_Some in Hr as (m & d & _ & _ & ->). eauto.
Qed.

(** C10: in the rows, a row dated ["Unknown"] is followed only by rows
    dated ["Unknown"]: every other date is a resolved one, begins with a
    digit and is therefore before ["Unknown"] in the order of the sort. *)
Theorem unknown_dates_last clock soup names t rows w t' :
  extract_pitcher_starts clock soup names t = (Ok (rows, w), t') ->
  (forall i j ri rj,
     (i < j)%nat -> rows !! i = Some ri -> rows !! j = Some rj ->
     Date ri = py "Unknown" -> Date rj = py "Unknown")
  /\ (forall r, r ∈ rows ->
        Date r = py "Unknown"
        \/ (str_ltb (Date r) (py "Unknown") = true
            /\ exists c rest, Date r = c :: rest /\ is_digit c = true)).
Proof.
  intros H.
  assert (Hdates : forall r, r ∈ rows ->
            Date r = py "Unknown"
            \/ (str_ltb (Date r) (py "Unknown") = true
                /\ exists c rest, Date r = c :: rest /\ is_digit c = true)).
  { apply extract_pitcher_starts_Ok in H
      as [(_ & -> & _) | (table & dates & _ & Hd & -> & _)].
    - intros r Hr. by apply elem_of_nil in Hr.
    - intros r. rewrite list_sort_perm, elem_of_List_filter, elem_of_all_records.
      intros [(tr & k & item & e & _ & _ & _ & _ & ->) _].
      unfold record_of. cbn [Date].
      destruct (dates !! (k - 1)) as [s|] eqn:Hs; [right|by left].
      destruct (extract_dates_values _ _ _ _ _ _ _ Hd Hs) as [dt ->].
      destruct (strftime_head dt) as (c & rest & E & Hc).
      rewrite E. split; [by apply digit_before_Unknown|eauto]. }
  split; [|exact Hdates].
  intros i j ri rj Hij Hi Hj Hu.
  assert (Hsorted : sorted_by Date rows).
  { apply extract_pitcher_starts_Ok in H
      as [(_ & -> & _) | (table & dates & _ & _ & -> & _)].
    - by intros ? ? ? ? _ ?.
    - apply list_sort_sorted_by. }
  pose proof (Hsorted i j ri rj Hij Hi Hj) as Hle. rewrite Hu in Hle.
  destruct (Hdates rj) as [? | [Hlt _]]; [by eapply list_elem_of_lookup_2|done|].
  congruence.
Qed.

Lemma unknown_dates_last_witness :
  (forall i j ri rj,
     (i < j)%nat ->
     [row "2026-03-10" "L" "John Smith" "@ NYY"; row "Unknown" "L" "Al B" "v TOR"]
       !! i = Some ri ->
     [row "2026-03-10" "L" "John Smith" "@ NYY"; row "Unknown" "L" "Al B" "v TOR"]
       !! j = Some rj ->
     Date ri = py "Unknown" -> Date rj = py "Unknown")
  /\ (forall r,
        r ∈ [row "2026-03-10" "L" "John Smith" "@ NYY";
             row "Unknown" "L" "Al B" "v TOR"] ->
        Date r = py "Unknown"
        \/ (str_ltb (Date r) (py "Unknown") = true
            /\ exists c rest, Date r = c :: rest /\ is_digit c = true)).
Proof.
  apply (unknown_dates_last (at_date 2025 5 1)
           (grid [th "Team"; th "TBD"; th "Mon 3/10"]
              [[td "BOS"; td "TOR Al B (L)"; td "@ NYY John Smith (L)"]])
           [] O _ [] 2%nat).
  vm_compute. reflexivity.
Defined.

(** ** Documents without the expected structure *)

(** Without the [div] or without a [table] in it, the call returns no
    rows and one warning. *)
Lemma no_table_warns clock soup names t :
  the_table soup = None ->
  exists msg, extract_pitcher_starts clock soup names t = (Ok ([], [msg]), t).
Proof.
  unfold the_table, extract_pitcher_starts.
  destruct (find_class (py "div") (py "table-scroll") soup) as [div|];
    cbn [mbind option_bind]; [|by eauto].
  intros ->. by eauto.
Qed.

(** With a [table] but without a [tbody], or without a row in it, the
    call raises [AttributeError]. *)
Lemma no_header_row_raises clock soup names t table :
  the_table soup = Some table -> header_cells soup = None ->
  extract_pitcher_starts clock soup names t = (Raise AttributeError, t).
Proof.
  unfold the_table, extract_pitcher_starts. intros Ht Hh.
  destruct (find_class (py "div") (py "table-scroll") soup) as [div|];
    cbn [mbind option_bind] in Ht; [|done].
  rewrite Ht. unfold bind. rewrite extract_dates_unfold, Hh. done.
Qed.

(** C1 (fails on the code): a document whose table has no [tbody] lacks
    the expected table structure; [extract_pitcher_starts] does not
    return the empty sequence and a warning for it, it raises
    [AttributeError]. *)
Theorem missing_tbody_raises clock names :
  run_extract clock
    (page [elem "table" [elem "tr" [th "Team"; th "Mon 3/10"];
                         elem "tr" [td "BOS"; td "NYY John Smith (L)"]]])
    names
  = Raise AttributeError.
Proof.
  unfold run_extract.
  erewrite no_header_row_raises; [done| |]; by vm_compute.
Qed.
(** ** When the resolver returns *)

Lemma int_raises (s : str) e : int s = Raise e -> e = ValueError.
Proof. unfold int. destruct (_ && _); congruence. Qed.

(** A header step raises nothing but [OverflowError], and only for a
    token or a year that is no C [int]. *)
Lemma header_step_outcome clock idx th dates t :
  match header_step clock (idx, th) dates t with
  | (Ok _, _) => True
  | (Raise e, _) =>
      e = OverflowError
      /\ exists m d,
           header_token (get_text_strip th) = Some (m, d)
           /\ fits_int (infer_year (dt_year (clock t)) (dt_month (clock (S t))) m)
              && fits_int m && fits_int d = false
  end.
Proof.
  unfold header_step, header_token.
  destruct (re_search date_pattern (get_text_strip th)) as [g|];
    cbn [mbind option_bind]; [|done].
  unfold token_month_day, unpack_ints, try_except_ValueError.
  destruct (split_slash (default [] (group g 2))) as [|a [|b [|? ?]]]; try done.
  unfold bind, lift, ret, raise, datetime_now.
  destruct (int a) as [m|e] eqn:Ha; [|by apply int_raises in Ha as ->].
  destruct (int b) as [d|e] eqn:Hb; [|by apply int_raises in Hb as ->].
  unfold infer_year.
  set (y := if m <? dt_month (clock (S t)) then dt_year (clock t) + 1
            else dt_year (clock t)).
  unfold datetime.
  destruct (fits_int y && fits_int m && fits_int d) eqn:Hf; cbn [negb].
  - repeat (match goal with |- context [if negb ?b then _ else _] => destruct b end;
            cbn [negb]); done.
  - split; [done|]. exists m, d. done.
Qed.

(** X7: the resolver returns a map whenever the header row is there, the
    numbers of the leftmost tokens are C [int]s and so are the years of
    the clock and their successors. *)
Lemma extract_dates_returns clock soup t ths :
  header_cells soup = Some ths ->
  (forall n, fits_int (dt_year (clock n)) = true
             /\ fits_int (dt_year (clock n) + 1) = true) ->
  (forall cell m d, cell ∈ ths ->
     header_token (get_text_strip cell) = Some (m, d) ->
     fits_int m = true /\ fits_int d = true) ->
  exists dates t', extract_dates_from_headers clock soup t = (Ok dates, t').
Proof.
  intros Hh Hclock Htok. rewrite extract_dates_unfold, Hh. clear Hh.
  generalize (∅ : gmap Z str) as dates0. generalize 1 as start. revert t.
  induction ths as [|cell ths IH]; intros t start dates0; cbn [for_each enumerate].
  - unfold ret. eauto.
  - unfold bind.
    pose proof (header_step_outcome clock start cell dates0 t) as Ho.
    destruct (header_step clock (start, cell) dates0 t) as [[dates1|e] t1].
    + apply IH. intros c m d Hc. apply Htok. by right.
    + exfalso. destruct Ho as (_ & m & d & Ht & Hf).
      destruct (Htok cell m d) as [Hm Hd]; [by left|done|].
      rewrite Hm, Hd, !andb_true_r in Hf. unfold infer_year in Hf.
      destruct (Hclock t) as [H1 H2]. destruct (m <? _); congruence.
Qed.

(** A month beyond the C [int]s makes the resolver raise. *)
Example huge_month_raises :
  extract_dates_from_headers (at_date 2025 5 1)
    (grid [th "Team"; th "Mon 99999999999/1"] []) O
  = (Raise OverflowError, 2%nat).
Proof. by vm_compute. Qed.
(** ** More on [strip] and [lower] *)

Lemma lstrip_decomp (s : str) :
  exists w, s = w ++ lstrip s /\ forallb is_space w = true
            /\ (forall c, head (lstrip s) = Some c -> is_space c = false).
Proof.
  induction s as [|c s (w & E & Hw & Hh)]; simpl.
  - exists []. split_and!; done.
  - destruct (is_space c) eqn:Hc.
    + exists (c :: w). simpl. rewrite Hc, Hw. split_and!; [congruence|done|done].
    + exists []. simpl. split_and!; [done|done|]. by intros ? [= <-].
Qed.

Lemma lstrip_id (s : str) :
  (forall c, head s = Some c -> is_space c = false) -> lstrip s = s.
Proof.
  destruct s as [|c s]; simpl; [done|]. intros H. by rewrite (H c eq_refl).
Qed.

Lemma head_rev (s : str) : head (rev s) = last s.
Proof.
  induction s as [|c s IH] using rev_ind; [done|].
  rewrite rev_app_distr, last_snoc. done.
Qed.

Lemma last_rev (s : str) : last (rev s) = head s.
Proof. rewrite <- head_rev, rev_involutive. done. Qed.

Lemma rstrip_decomp (s : str) :
  exists w, s = rstrip s ++ w /\ forallb is_space w = true
            /\ (forall c, last (rstrip s) = Some c -> is_space c = false).
Proof.
  unfold rstrip. destruct (lstrip_decomp (rev s)) as (w & E & Hw & Hh).
  exists (rev w). split_and!.
  - rewrite <- rev_app_distr, <- E, rev_involutive. done.
  - rewrite forallb_forall in *. intros c Hc. apply Hw. by apply in_rev.
  - intros c. rewrite last_rev. auto.
Qed.

Lemma rstrip_id (s : str) :
  (forall c, last s = Some c -> is_space c = false) -> rstrip s = s.
Proof.
  intros H. unfold rstrip. rewrite lstrip_id, rev_involutive; [done|].
  intros c. rewrite head_rev. auto.
Qed.

(** [strip] takes whitespace off both ends and leaves none there. *)
Lemma strip_decomp (s : str) :
  exists w1 w2, s = w1 ++ strip s ++ w2
                /\ forallb is_space w1 = true /\ forallb is_space w2 = true
                /\ trimmed (strip s).
Proof.
  unfold strip.
  destruct (lstrip_decomp s) as (w1 & E1 & Hw1 & Hh).
  destruct (rstrip_decomp (lstrip s)) as (w2 & E2 & Hw2 & Hl).
  exists w1, w2. split_and!; [congruence|done|done|].
  split; [|done]. intros c Hc. apply Hh. rewrite E2.
  destruct (rstrip (lstrip s)); [done|]. done.
Qed.

Lemma strip_trimmed (s : str) : trimmed s -> strip s = s.
Proof.
  intros [Hh Hl]. unfold strip. rewrite (lstrip_id s Hh). by apply rstrip_id.
Qed.

Lemma strip_idemp (s : str) : strip (strip s) = strip s.
Proof.
  apply strip_trimmed. by destruct (strip_decomp s) as (? & ? & _ & _ & _ & ?).
Qed.

Lemma lower_char_space c : is_space (lower_char c) = is_space c.
Proof. destruct c as [[] [] [] [] [] [] [] []]; by vm_compute. Qed.

Lemma lower_char_idemp c : lower_char (lower_char c) = lower_char c.
Proof. destruct c as [[] [] [] [] [] [] [] []]; by vm_compute. Qed.

Lemma lower_char_not_AZ c : is_AZ (lower_char c) = false.
Proof. destruct c as [[] [] [] [] [] [] [] []]; by vm_compute. Qed.

Lemma lower_char_newline c : lower_char c = newline -> c = newline.
Proof. destruct c as [[] [] [] [] [] [] [] []]; by vm_compute. Qed.

Lemma lower_idemp (s : str) : lower (lower s) = lower s.
Proof.
  unfold lower. rewrite map_map. apply map_ext. apply lower_char_idemp.
Qed.

Lemma lstrip_lower (s : str) : lstrip (lower s) = lower (lstrip s).
Proof.
  induction s as [|c s IH]; simpl; [done|].
  rewrite lower_char_space. by destruct (is_space c).
Qed.

Lemma lower_rev (s : str) : rev (lower s) = lower (rev s).
Proof. unfold lower. symmetry. apply map_rev. Qed.

Lemma strip_lower (s : str) : strip (lower s) = lower (strip s).
Proof.
  unfold strip, rstrip.
  by rewrite lstrip_lower, lower_rev, lstrip_lower, lower_rev.
Qed.
(** ** What [parse_pitcher_entry] returns and what it passes over *)

Lemma is_LR_cases h : is_LR h = true -> [h] = py "L" \/ [h] = py "R".
Proof.
  unfold is_LR. intros [H|H]%orb_true_iff; apply Ascii.eqb_eq in H; subst; auto.
Qed.

Lemma forallb_app_inv {X} (p : X -> bool) (l1 l2 : list X) :
  forallb p (l1 ++ l2) = true -> forallb p l1 = true /\ forallb p l2 = true.
Proof. rewrite forallb_app. apply andb_true_iff. Qed.

Lemma spaces_entry_chars (w : str) :
  forallb is_space w = true -> forallb is_entry_char w = true.
Proof.
  rewrite !forallb_forall. intros H c Hc. unfold is_entry_char, is_name_char.
  rewrite (H c Hc). by rewrite !orb_true_r.
Qed.

Lemma name_entry_chars (w : str) :
  forallb is_name_char w = true -> forallb is_entry_char w = true.
Proof.
  rewrite !forallb_forall. intros H c Hc. unfold is_entry_char.
  rewrite (H c Hc). by rewrite !orb_true_r.
Qed.

Lemma AZ_entry_chars (w : str) :
  forallb is_AZ w = true -> forallb is_entry_char w = true.
Proof.
  rewrite !forallb_forall. intros H c Hc.
  unfold is_entry_char, is_name_char, is_letter.
  rewrite (H c Hc). by rewrite !orb_true_r.
Qed.

(** X1: a parsed entry has handedness [L] or [R], an opponent made of
    ["@ "] or ["v "] and three upper-case letters, the former exactly
    when the text begins with [@], and a name of letters and whitespace
    without whitespace at either end. *)
Theorem parsed_entry_well_formed (s : str) (e : ParsedEntry) :
  parse_pitcher_entry s = Some e ->
  (handedness e = py "L" \/ handedness e = py "R")
  /\ (exists code,
        length code = 3%nat /\ forallb is_AZ code = true
        /\ ((head s = Some "@"%char /\ formatted_opponent e = py "@ " ++ code)
            \/ (head s <> Some "@"%char /\ formatted_opponent e = py "v " ++ code)))
  /\ forallb is_name_char (pitcher_name e) = true
  /\ trimmed (pitcher_name e).
Proof.
  intros (away & ws & code & name & h & tail & -> & Hok & _ & ->)%parse_pitcher_entry_Some.
  apply entry_ok_inv in Hok as (Hws & Hlen & Hcode & _ & Hname & Hh).
  destruct (strip_decomp name) as (w1 & w2 & E & _ & _ & Htr).
  split_and!.
  - by apply is_LR_cases.
  - exists code. split_and!; [done..|]. unfold entry_text. destruct away.
    + left. done.
    + right. split; [|done]. simpl.
      destruct ws as [|x ws]; simpl.
      * destruct code as [|c0 code]; [done|]. simpl in *.
        apply andb_true_iff in Hcode as [Hc _]. intros [= ->]. done.
      * simpl in Hws. apply andb_true_iff in Hws as [Hx _]. intros [= ->]. done.
  - simpl. rewrite E in Hname.
    apply forallb_app_inv in Hname as [_ Hname].
    by apply forallb_app_inv in Hname as [Hname _].
  - done.
Qed.

Lemma parsed_entry_well_formed_witness :
  (py "L" = py "L" \/ py "L" = py "R")
  /\ (exists code,
        length code = 3%nat /\ forallb is_AZ code = true
        /\ ((head (py "@ NYY John Smith (L)") = Some "@"%char
             /\ py "@ NYY" = py "@ " ++ code)
            \/ (head (py "@ NYY John Smith (L)") <> Some "@"%char
                /\ py "@ NYY" = py "v " ++ code)))
  /\ forallb is_name_char (py "John Smith") = true
  /\ trimmed (py "John Smith").
Proof.
  exact (parsed_entry_well_formed (py "@ NYY John Smith (L)")
           {| handedness := py "L"; pitcher_name := py "John Smith";
              formatted_opponent := py "@ NYY" |} eq_refl).
Defined.

(** X2: a text with a character other than [@], whitespace, an ASCII
    letter or a parenthesis (a digit, a period, an apostrophe, a hyphen,
    an accented letter) is not parsed. *)
Theorem other_characters_rejected (s : str) :
  forallb is_entry_char s = false -> parse_pitcher_entry s = None.
Proof.
  intros Hs. destruct (parse_pitcher_entry s) as [e|] eqn:He; [exfalso|done].
  apply parse_pitcher_entry_Some in He
    as (away & ws & code & name & h & tail & -> & Hok & Htail & _).
  apply entry_ok_inv in Hok as (Hws & Hlen & Hcode & _ & Hname & Hh).
  apply not_true_iff_false in Hs. apply Hs. clear Hs.
  unfold entry_text. rewrite !forallb_app.
  rewrite (spaces_entry_chars ws), (AZ_entry_chars code), (name_entry_chars name)
    by done.
  assert (is_entry_char h = true) as Hh'.
  { apply is_LR_cases in Hh as [[= ->] | [= ->]]; done. }
  assert (forallb is_entry_char tail = true) as ->
    by (destruct Htail as [-> | ->]; done).
  simpl. rewrite Hh'. by destruct away.
Qed.

Lemma other_characters_rejected_witness :
  parse_pitcher_entry (py "BOS J.T. O'Neill-Smith (R)") = None.
Proof.
  apply (other_characters_rejected (py "BOS J.T. O'Neill-Smith (R)")).
  reflexivity.
Defined.

(** X3: the texts that are parsed are the conforming entries and the
    conforming entries followed by one newline, and no others. *)
Theorem accepted_iff_conforms (s : str) :
  is_Some (parse_pitcher_entry s) <->
  exists s0, conforms s0 /\ (s = s0 \/ s = s0 ++ [newline]).
Proof.
  split.
  - intros [e He]. apply parse_pitcher_entry_Some in He
      as (away & ws & code & name & h & tail & -> & Hok & Htail & _).
    exists (entry_text away ws code name h). split.
    + exists away, ws, code, name, h. done.
    + destruct Htail as [-> | ->]; [left; by rewrite app_nil_r | by right].
  - intros (s0 & (away & ws & code & name & h & -> & Hok) & Hs).
    exists (entry_parsed away code name h). apply parse_pitcher_entry_Some.
    destruct Hs as [-> | ->].
    + exists away, ws, code, name, h, []. rewrite app_nil_r. auto.
    + exists away, ws, code, name, h, [newline]. auto.
Qed.
(** ** Greedy repetition *)

Section Greedy.
Context {A : Type}.

(** [p{n}] on [n] characters of the class takes them all. *)
Lemma rep_exact p (s1 : str) : forall n pos (s2 : str) (k : nat -> str -> option A),
  forallb p s1 = true -> length s1 = n ->
  rep p n (Some n) pos (s1 ++ s2) k = k (pos + n)%nat s2.
Proof.
  induction s1 as [|c s1 IH]; intros n pos s2 k Hp Hn; simpl in Hn; subst n.
  - rewrite Nat.add_0_r. destruct s2 as [|c s2]; simpl; [done|].
    by rewrite andb_false_r.
  - simpl in Hp. apply andb_true_iff in Hp as [Hc Hp].
    cbn [app rep length]. rewrite Hc. cbn [andb negb pred fmap option_fmap option_map].
    rewrite bool_decide_eq_false_2 by done. cbn [negb].
    rewrite (IH (length s1) (S pos) s2 k Hp eq_refl).
    replace (S pos + length s1)%nat with (pos + S (length s1))%nat by lia.
    by destruct (k _ s2).
Qed.

(** [p*] and [p+] first try the longest run of the class. *)
Lemma rep_greedy p (s1 : str) : forall lo pos (s2 : str) (k : nat -> str -> option A) x,
  forallb p s1 = true -> (lo <= length s1)%nat ->
  match s2 with c :: _ => p c = false | [] => True end ->
  k (pos + length s1)%nat s2 = Some x ->
  rep p lo None pos (s1 ++ s2) k = Some x.
Proof.
  induction s1 as [|c s1 IH]; intros lo pos s2 k x Hp Hlo Hs2 Hk; simpl in Hlo.
  - assert (lo = O) as -> by lia. simpl in Hk. rewrite Nat.add_0_r in Hk.
    destruct s2 as [|c s2]; simpl; [done|]. by rewrite Hs2.
  - simpl in Hp. apply andb_true_iff in Hp as [Hc Hp].
    cbn [app rep]. rewrite Hc. cbn [andb fmap option_fmap option_map].
    rewrite bool_decide_eq_false_2 by done. cbn [negb].
    rewrite (IH (pred lo) (S pos) s2 k x); [done|done|lia|done|].
    rewrite <- Hk. f_equal. simpl. lia.
Qed.
End Greedy.

Lemma digit_not_space c : is_digit c = true -> is_space c = false.
Proof. destruct c as [[] [] [] [] [] [] [] []]; vm_compute; congruence. Qed.

Lemma digit_not_slash c : is_digit c = true -> Ascii.eqb c "/" = false.
Proof. destruct c as [[] [] [] [] [] [] [] []]; vm_compute; congruence. Qed.

Lemma split_slash_digits (a : str) (s : str) :
  forallb is_digit a = true ->
  split_slash (a ++ "/"%char :: s)
  = match split_slash s with
    | w :: ws => a :: w :: ws
    | [] => [a]
    end.
Proof.
  induction a as [|c a IH]; simpl.
  - intros _. by destruct (split_slash s).
  - intros [Hc Ha]%andb_true_iff. rewrite (digit_not_slash c Hc), (IH Ha).
    by destruct (split_slash s).
Qed.

Lemma split_slash_no_slash (b : str) :
  forallb is_digit b = true -> split_slash b = [b].
Proof.
  induction b as [|c b IH]; simpl; [done|].
  intros [Hc Hb]%andb_true_iff. by rewrite (digit_not_slash c Hc), (IH Hb).
Qed.

Lemma int_number (s : str) : is_number s = true -> int s = Ok (digits_value s).
Proof. unfold is_number, int. by intros ->. Qed.

Lemma is_number_inv (s : str) :
  is_number s = true ->
  forallb is_digit s = true /\ exists c s', s = c :: s' /\ is_digit c = true.
Proof.
  unfold is_number. intros [[Hn Hd]%andb_true_iff _]%andb_true_iff.
  split; [done|]. destruct s as [|c s]; [done|]. simpl in Hd.
  apply andb_true_iff in Hd as [Hc _]. eauto.
Qed.

(** A header text that begins with three word characters, whitespace
    and [digits/digits] has this month and day as its leftmost token. *)
Lemma date_pattern_at_start (w ws a b rest : str) :
  length w = 3%nat -> forallb is_word w = true -> forallb is_space ws = true ->
  is_number a = true -> is_number b = true -> no_digit_ahead rest = true ->
  re_search date_pattern (w ++ ws ++ a ++ py "/" ++ b ++ rest)
  = Some (<[2%nat := a ++ py "/" ++ b]> (<[1%nat := w]> ∅)).
Proof.
  intros Hlen Hw Hws (Ha & ca & a' & Ea & Hca)%is_number_inv
         (Hb & cb & b' & Eb & Hcb)%is_number_inv Hrest.
  unfold re_search.
  assert (run date_pattern 0 (w ++ ws ++ a ++ py "/" ++ b ++ rest) ∅
            (fun _ _ g => Some g)
          = Some (<[2%nat := a ++ py "/" ++ b]> (<[1%nat := w]> ∅))) as Hrun.
  { unfold date_pattern, Times, Star, Plus, Lit. cbn [run].
    rewrite rep_exact by done.
    replace (take (0 + 3 - 0) (w ++ ws ++ a ++ py "/" ++ b ++ rest)) with w
      by (rewrite <- Hlen; simpl; by rewrite Nat.sub_0_r, take_app_length).
    apply rep_greedy; [done|lia| |].
    { rewrite Ea. simpl. by apply digit_not_space. }
    apply rep_greedy; [done|rewrite Ea; simpl; lia|done|].
    change (py "/" ++ b ++ rest) with ("/"%char :: b ++ rest). cbn iota beta.
    change (Ascii.eqb "/" "/") with true. cbn iota.
    apply rep_greedy; [done|rewrite Eb; simpl; lia| |].
    { unfold no_digit_ahead in Hrest. destruct rest; [done|].
      by apply negb_true_iff. }
    f_equal. f_equal.
    replace (S (0 + 3 + length ws + length a) + length b - (0 + 3 + length ws))%nat
      with (length (a ++ py "/" ++ b)) by (rewrite !length_app; simpl; lia).
    rewrite <- (take_app_length (a ++ py "/" ++ b) rest) at 2.
    by rewrite <- !app_assoc. }
  destruct (w ++ ws ++ a ++ py "/" ++ b ++ rest); cbn [search_from]; by rewrite Hrun.
Qed.
Lemma datetime_invalid y m d :
  fits_int y && fits_int m && fits_int d = true -> valid_date y m d = false ->
  datetime y m d = Raise ValueError.
Proof.
  unfold datetime, valid_date. intros -> Hv. cbn [negb].
  destruct ((1 <=? y) && (y <=? 9999)) eqn:Hy; cbn [negb]; [|done].
  destruct ((1 <=? m) && (m <=? 12)) eqn:Hm; cbn [negb]; [|done].
  destruct ((1 <=? d) && (d <=? days_in_month y m)) eqn:Hd; cbn [negb]; [|done].
  apply andb_true_iff in Hy as [Hy1 Hy2]. apply andb_true_iff in Hm as [Hm1 Hm2].
  apply andb_true_iff in Hd as [Hd1 Hd2].
  rewrite ?Hy1, ?Hy2, ?Hm1, ?Hm2, ?Hd1, ?Hd2 in Hv. done.
Qed.

(** X4: a header cell whose text begins with three word characters
    (whatever they are: the weekday is not checked), optional whitespace
    and [month/day] in digits is entered under its index with that month
    and day, in the year inferred from the two readings of the clock, when
    this is a calendar date; when it is none, the map is left as it was. *)
Theorem dated_header_entered clock idx cell dates t (w ws a b rest : str) :
  get_text_strip cell = w ++ ws ++ a ++ py "/" ++ b ++ rest ->
  length w = 3%nat -> forallb is_word w = true -> forallb is_space ws = true ->
  is_number a = true -> is_number b = true -> no_digit_ahead rest = true ->
  let m := digits_value a in
  let d := digits_value b in
  let y := infer_year (dt_year (clock t)) (dt_month (clock (S t))) m in
  fits_int y && fits_int m && fits_int d = true ->
  header_step clock (idx, cell) dates t
  = (Ok (if valid_date y m d
         then <[idx := strftime_Ymd {| dt_year := y; dt_month := m; dt_day := d |}]> dates
         else dates),
     S (S t)).
Proof.
  intros Htext Hlen Hw Hws Ha Hb Hrest m d y Hfits.
  unfold header_step. rewrite Htext, date_pattern_at_start by done.
  unfold group. rewrite lookup_insert_eq. cbn [default from_option id].
  pose proof (is_number_inv a Ha) as [Hda _].
  pose proof (is_number_inv b Hb) as [Hdb _].
  change (a ++ py "/" ++ b) with (a ++ "/"%char :: b).
  rewrite split_slash_digits, split_slash_no_slash by done.
  unfold unpack_ints, try_except_ValueError, bind, lift, ret, datetime_now.
  rewrite (int_number a Ha), (int_number b Hb).
  fold m d. unfold infer_year in y. fold y.
  destruct (valid_date y m d) eqn:Hv.
  - by rewrite (datetime_valid y m d Hv).
  - by rewrite (datetime_invalid y m d Hfits Hv).
Qed.

Lemma dated_header_entered_witness :
  header_step (at_date 2025 5 1) (1, th "Mon 3/10") ∅ O
  = (Ok {[1 := py "2026-03-10"]}, 2%nat).
Proof.
  exact (dated_header_entered (at_date 2025 5 1) 1 (th "Mon 3/10") ∅ O
           (py "Mon") (py " ") (py "3") (py "10") []
           eq_refl eq_refl eq_refl eq_refl eq_refl eq_refl eq_refl eq_refl).
Defined.
(** ** The entries, the failures and the clock readings of the resolver *)

Lemma decimal_four y :
  1000 <= y <= 9999 -> length (decimal y) = 4%nat.
Proof.
  intros Hy. unfold decimal.
  destruct (Z.to_nat y) as [|[|[|[|fuel]]]] eqn:Hf; try lia.
  assert (100 <= y / 10 <= 999) as H1.
  { split; [apply Z.div_le_lower_bound; lia|].
    apply Z.lt_succ_r, Z.div_lt_upper_bound; lia. }
  assert (10 <= y / 10 / 10 <= 99) as H2.
  { split; [apply Z.div_le_lower_bound; lia|].
    apply Z.lt_succ_r, Z.div_lt_upper_bound; lia. }
  assert (1 <= y / 10 / 10 / 10 <= 9) as H3.
  { split; [apply Z.div_le_lower_bound; lia|].
    apply Z.lt_succ_r, Z.div_lt_upper_bound; lia. }
  cbn [decimal_aux].
  destruct (Z.ltb_spec y 10); [lia|].
  destruct (Z.ltb_spec (y / 10) 10); [lia|].
  destruct (Z.ltb_spec (y / 10 / 10) 10); [lia|].
  destruct (Z.ltb_spec (y / 10 / 10 / 10) 10); [done|lia].
Qed.

(** X5: every entry of the map is a calendar date of the year of a
    reading of the clock or of the year after it, written as the year,
    [-], two digits of month, [-], two digits of day; from the year 1000
    on it has ten characters. *)
Theorem resolved_dates_shape clock soup t dates t' idx s :
  extract_dates_from_headers clock soup t = (Ok dates, t') ->
  dates !! idx = Some s ->
  exists t1 y m d,
    valid_date y m d = true
    /\ (y = dt_year (clock t1) \/ y = dt_year (clock t1) + 1)
    /\ s = decimal y ++ py "-" ++ two_digits m ++ py "-" ++ two_digits d
    /\ (1000 <= y -> length s = 10%nat).
Proof.
  intros H Hs. rewrite extract_dates_unfold in H.
  destruct (header_cells soup) as [ths|]; [|done].
  destruct (header_loop_gen clock ths _ _ _ _ _ H idx s Hs)
    as [He | (_ & cell & t1 & _ & Hr)].
  { by rewrite lookup_empty in He. }
  apply resolve_Some in Hr as (m & d & _ & Hv & ->).
  exists t1, (infer_year (dt_year (clock t1)) (dt_month (clock (S t1))) m), m, d.
  split_and!; [done| |done|].
  - unfold infer_year. destruct (m <? _); auto.
  - intros Hy. unfold strftime_Ymd. cbn [dt_year dt_month dt_day].
    rewrite !length_app, decimal_four; [done|].
    unfold valid_date in Hv. rewrite !andb_true_iff, !Z.leb_le in Hv. lia.
Qed.

Lemma resolved_dates_shape_witness :
  exists t1 y m d,
    valid_date y m d = true
    /\ (y = dt_year (at_date 2025 5 1 t1) \/ y = dt_year (at_date 2025 5 1 t1) + 1)
    /\ py "2026-03-10" = decimal y ++ py "-" ++ two_digits m ++ py "-" ++ two_digits d
    /\ (1000 <= y -> length (py "2026-03-10") = 10%nat).
Proof.
  apply (resolved_dates_shape (at_date 2025 5 1)
           (grid [th "Team"; th "Mon 3/10"] []) O {[1 := py "2026-03-10"]} 2%nat 1).
  - vm_compute. reflexivity.
  - vm_compute. reflexivity.
Defined.

Lemma header_loop_raise clock (l : list node) : forall start dates0 t e t',
  for_each (enumerate l start) (header_step clock) dates0 t = (Raise e, t') ->
  e = OverflowError
  /\ exists cell m d t1,
       cell ∈ l /\ header_token (get_text_strip cell) = Some (m, d)
       /\ fits_int (infer_year (dt_year (clock t1)) (dt_month (clock (S t1))) m)
          && fits_int m && fits_int d = false.
Proof.
  induction l as [|cell l IH]; intros start dates0 t e t' H;
    cbn [for_each enumerate] in H; [done|].
  unfold bind in H.
  pose proof (header_step_outcome clock start cell dates0 t) as Ho.
  destruct (header_step clock (start, cell) dates0 t) as [[dates1|e1] t1].
  - apply IH in H as (-> & c & m & d & t2 & Hc & Ht & Hf).
    split; [done|]. exists c, m, d, t2. split_and!; [by right|done|done].
  - injection H as <- <-. destruct Ho as (-> & m & d & Ht & Hf).
    split; [done|]. exists cell, m, d, t. split_and!; [by left|done|done].
Qed.

(** X6: the resolver fails in two ways only: with [AttributeError],
    before any reading of the clock, when there is no header row; with
    [OverflowError] when the month or the day of a header's leftmost
    token, or the inferred year, is no C [int].  A [ValueError] never
    leaves it. *)
Theorem resolver_failures clock soup t e t' :
  extract_dates_from_headers clock soup t = (Raise e, t') ->
  (e = AttributeError /\ header_cells soup = None /\ t' = t)
  \/ (e = OverflowError
      /\ exists ths cell m d t1,
           header_cells soup = Some ths /\ cell ∈ ths
           /\ header_token (get_text_strip cell) = Some (m, d)
           /\ fits_int (infer_year (dt_year (clock t1)) (dt_month (clock (S t1))) m)
              && fits_int m && fits_int d = false).
Proof.
  rewrite extract_dates_unfold.
  destruct (header_cells soup) as [ths|].
  - intros (-> & cell & m & d & t1 & ? & ? & ?)%header_loop_raise.
    right. split; [done|]. exists ths, cell, m, d, t1. done.
  - intros [= <- <-]. by left.
Qed.

Lemma resolver_failures_witness :
  (AttributeError = AttributeError
   /\ header_cells (page [elem "table" [elem "tr" [th "Team"]]]) = None
   /\ O = O)
  \/ (AttributeError = OverflowError
      /\ exists ths cell m d t1,
           header_cells (page [elem "table" [elem "tr" [th "Team"]]]) = Some ths
           /\ cell ∈ ths
           /\ header_token (get_text_strip cell) = Some (m, d)
           /\ fits_int (infer_year (dt_year (at_date 2025 5 1 t1))
                                   (dt_month (at_date 2025 5 1 (S t1))) m)
              && fits_int m && fits_int d = false).
Proof.
  apply (resolver_failures (at_date 2025 5 1)
           (page [elem "table" [elem "tr" [th "Team"]]]) O AttributeError O).
  vm_compute. reflexivity.
Defined.

Lemma extract_dates_returns_witness :
  exists dates t',
    extract_dates_from_headers (at_date 2025 5 1)
      (grid [th "Team"; th "Mon 3/10"] []) O = (Ok dates, t').
Proof.
  apply (extract_dates_returns (at_date 2025 5 1)
           (grid [th "Team"; th "Mon 3/10"] []) O [th "Mon 3/10"]).
  - reflexivity.
  - intros n. split; reflexivity.
  - intros cell m d Hcell Htok.
    apply list_elem_of_singleton in Hcell. subst cell.
    vm_compute in Htok. injection Htok as <- <-. split; reflexivity.
Defined.

Lemma header_step_ticks clock item dates t :
  snd (header_step clock item dates t) = t
  \/ snd (header_step clock item dates t) = S (S t).
Proof.
  destruct item as [idx cell]. unfold header_step.
  destruct (re_search date_pattern (get_text_strip cell)) as [g|]; [|by left].
  unfold unpack_ints, try_except_ValueError.
  destruct (split_slash (default [] (group g 2))) as [|a [|b [|? ?]]];
    try (by left).
  unfold bind, lift, ret, raise, datetime_now.
  destruct (int a) as [m|[]]; try (by left).
  destruct (int b) as [d|[]]; try (by left).
  destruct (datetime _ m d) as [dt|[]]; by right.
Qed.

(** X8: the resolver reads the clock at most twice for each header cell,
    and not at all when there is no header cell. *)
Theorem clock_read_twice_per_header clock soup t ths :
  header_cells soup = Some ths ->
  (t <= snd (extract_dates_from_headers clock soup t)
   <= t + 2 * length ths)%nat.
Proof.
  intros Hh. rewrite extract_dates_unfold, Hh.
  generalize (∅ : gmap Z str) as dates0. generalize 1 as start. revert t.
  clear Hh. induction ths as [|cell ths IH]; intros t start dates0;
    cbn [for_each enumerate length].
  - unfold ret. simpl. lia.
  - unfold bind.
    pose proof (header_step_ticks clock (start, cell) dates0 t) as Ht.
    destruct (header_step clock (start, cell) dates0 t) as [[dates1|e] t1];
      cbn [snd] in Ht |- *.
    + specialize (IH t1 (start + 1) dates1). lia.
    + lia.
Qed.

Lemma clock_read_twice_per_header_witness :
  (O <= snd (extract_dates_from_headers (at_date 2025 5 1)
               (grid [th "Team"; th "Mon 3/10"; th "TBD"] []) O)
   <= O + 2 * length [th "Mon 3/10"; th "TBD"])%nat.
Proof.
  apply (clock_read_twice_per_header (at_date 2025 5 1)
           (grid [th "Team"; th "Mon 3/10"; th "TBD"] []) O
           [th "Mon 3/10"; th "TBD"]).
  reflexivity.
Defined.
(** ** More on the rows *)

Lemma extract_pitcher_starts_unfold clock soup names t table :
  the_table soup = Some table ->
  extract_pitcher_starts clock soup names t
  = match extract_dates_from_headers clock soup t with
    | (Ok dates, t') =>
        (Ok (list_sort Date (List.filter (keeps names) (all_records dates table)),
             []), t')
    | (Raise e, t') => (Raise e, t')
    end.
Proof.
  unfold the_table, extract_pitcher_starts.
  destruct (find_class (py "div") (py "table-scroll") soup) as [div|];
    cbn [mbind option_bind]; [|done].
  intros ->. unfold bind, ret.
  destruct (extract_dates_from_headers clock soup t) as [[dates|e] t']; [|done].
  by rewrite row_loop_spec.
Qed.

Lemma extract_pitcher_starts_no_table clock soup names names' t :
  the_table soup = None ->
  extract_pitcher_starts clock soup names t
  = extract_pitcher_starts clock soup names' t.
Proof.
  unfold the_table, extract_pitcher_starts.
  destruct (find_class (py "div") (py "table-scroll") soup) as [div|];
    cbn [mbind option_bind]; [|done].
  by intros ->.
Qed.

Lemma dates_key_bounds clock soup t dates t' ths k s :
  extract_dates_from_headers clock soup t = (Ok dates, t') ->
  header_cells soup = Some ths ->
  dates !! k = Some s -> 1 <= k <= Z.of_nat (length ths).
Proof.
  intros H Hh Hs. rewrite extract_dates_unfold, Hh in H.
  destruct (header_loop_gen clock ths _ _ _ _ _ H k s Hs)
    as [He | (Hle & cell & _ & Hcell & _)].
  - by rewrite lookup_empty in He.
  - apply lookup_lt_Some in Hcell. lia.
Qed.

(** X9: a parsed cell in the first column of a data row, or in a column
    beyond the header cells, gives a row dated ["Unknown"]: the map has
    no entry at 0 nor past its last header. *)
Theorem undated_columns clock soup names t rows w t' table ths :
  extract_pitcher_starts clock soup names t = (Ok (rows, w), t') ->
  the_table soup = Some table -> header_cells soup = Some ths ->
  forall tr k item e,
    tr ∈ data_rows table -> 1 <= k ->
    row_cells tr !! Z.to_nat (k - 1) = Some item ->
    parse_pitcher_entry item = Some e ->
    k = 1 \/ Z.of_nat (length ths) < k - 1 ->
    let r := {| Date := py "Unknown"; Handedness := handedness e;
                Pitcher := pitcher_name e; Opponent := formatted_opponent e |} in
    keeps names r = true -> r ∈ rows.
Proof.
  intros H Htable Hh tr k item e Htr Hk Hitem He Hcol r Hkeep.
  rewrite (extract_pitcher_starts_unfold _ _ _ _ _ Htable) in H.
  destruct (extract_dates_from_headers clock soup t) as [[dates|?] t1] eqn:Hd;
    [|done].
  injection H as <- _ _.
  rewrite list_sort_perm, elem_of_List_filter. split; [|done].
  apply elem_of_all_records. exists tr, k, item, e. split_and!; try done.
  unfold r, record_of.
  destruct (dates !! (k - 1)) as [s|] eqn:Hs; [|done].
  pose proof (dates_key_bounds _ _ _ _ _ _ _ _ Hd Hh Hs). lia.
Qed.

Lemma undated_columns_witness :
  row "Unknown" "R" "Al B" "v TOR"
  ∈ [row "2026-03-10" "L" "John Smith" "@ NYY"; row "Unknown" "R" "Al B" "v TOR"].
Proof.
  apply (undated_columns (at_date 2025 5 1)
           (grid [th "Team"; th "Mon 3/10"]
                 [[td "TOR Al B (R)"; td "@ NYY John Smith (L)"]])
           [] O _ [] 2%nat
           (elem "table" [elem "tbody"
              [elem "tr" [th "Team"; th "Mon 3/10"];
               elem "tr" [td "TOR Al B (R)"; td "@ NYY John Smith (L)"]]])
           [th "Mon 3/10"] eq_refl eq_refl eq_refl
           (elem "tr" [td "TOR Al B (R)"; td "@ NYY John Smith (L)"]) 1
           (py "TOR Al B (R)")
           {| handedness := py "R"; pitcher_name := py "Al B";
              formatted_opponent := py "v TOR" |}).
  - vm_compute. apply list_elem_of_here.
  - lia.
  - reflexivity.
  - reflexivity.
  - left. reflexivity.
  - reflexivity.
Defined.

Section SortFilter.
Context {X : Type} (key : X -> str) (p : X -> bool).

Lemma insert_by_filter x l :
  StronglySorted (key_le key) l ->
  List.filter p (insert_by key x l)
  = if p x then insert_by key x (List.filter p l) else List.filter p l.
Proof.
  induction 1 as [|y l Hs IH Hall]; simpl.
  - by destruct (p x).
  - destruct (str_ltb (key y) (key x)) eqn:Hlt; simpl.
    + rewrite IH. destruct (p y), (p x); simpl; by rewrite ?Hlt.
    + destruct (p y) eqn:Hy; simpl.
      * destruct (p x); simpl; by rewrite ?Hlt.
      * destruct (p x) eqn:Hx; [|done].
        assert (forall l', Forall (key_le key y) l' ->
                  insert_by key x l' = x :: l') as Hfront.
        { intros [|z l'] Hl'; [done|]. simpl.
          apply Forall_cons in Hl' as [Hz _]. unfold key_le in Hz.
          by rewrite (str_le_trans (key x) (key y) (key z)). }
        rewrite Hfront; [done|].
        rewrite Forall_forall in *. intros z Hz. apply Hall.
        by apply elem_of_List_filter in Hz as [? _].
Qed.

(** Sorting the kept elements and keeping the elements of the sorted
    list come to the same. *)
Lemma list_sort_filter l :
  list_sort key (List.filter p l) = List.filter p (list_sort key l).
Proof.
  induction l as [|x l IH]; [done|].
  change (list_sort key (x :: l)) with (insert_by key x (list_sort key l)).
  rewrite insert_by_filter by apply list_sort_sorted. rewrite <- IH.
  simpl. by destruct (p x).
Qed.
End SortFilter.

(** X10: the rows of a call with player names are the rows of the call
    without names from which the rows of other pitchers are taken out:
    the same rows in the same order, and the call without names returns
    whenever the one with names does. *)
Theorem filtered_rows_of_all_rows clock soup names t rows w t' :
  extract_pitcher_starts clock soup names t = (Ok (rows, w), t') ->
  exists rows0,
    extract_pitcher_starts clock soup [] t = (Ok (rows0, w), t')
    /\ rows = List.filter (keeps names) rows0.
Proof.
  intros H. destruct (the_table soup) as [table|] eqn:Htable.
  - rewrite (extract_pitcher_starts_unfold _ _ _ _ _ Htable) in H.
    rewrite (extract_pitcher_starts_unfold _ _ _ _ _ Htable).
    destruct (extract_dates_from_headers clock soup t) as [[dates|?] t1]; [|done].
    injection H as <- <- <-. eexists. split; [done|].
    by rewrite keeps_no_names, list_sort_filter.
  - rewrite (extract_pitcher_starts_no_table _ _ names [] _ Htable) in H.
    exists rows. split; [done|].
    apply extract_pitcher_starts_Ok in H as [(_ & -> & _) | (? & ? & ? & _)];
      [done|congruence].
Qed.

Lemma filtered_rows_of_all_rows_witness :
  exists rows0,
    extract_pitcher_starts (at_date 2025 5 1)
      (grid [th "Team"; th "Mon 3/10"]
            [[td "BOS"; td "@ NYY John Smith (L)"]; [td "NYY"; td "BOS Jane Doe (R)"]])
      [] O = (Ok (rows0, []), 2%nat)
    /\ [row "2026-03-10" "R" "Jane Doe" "v BOS"]
       = List.filter (keeps [py "jane doe"]) rows0.
Proof.
  apply (filtered_rows_of_all_rows (at_date 2025 5 1)
           (grid [th "Team"; th "Mon 3/10"]
              [[td "BOS"; td "@ NYY John Smith (L)"]; [td "NYY"; td "BOS Jane Doe (R)"]])
           [py "jane doe"] O).
  vm_compute. reflexivity.
Defined.

Lemma List_filter_none {X} (p : X -> bool) (l : list X) :
  (forall x, x ∈ l -> p x = false) -> List.filter p l = [].
Proof.
  induction l as [|x l IH]; intros H; simpl; [done|].
  rewrite (H x) by apply list_elem_of_here.
  apply IH. intros y Hy. apply H. by apply list_elem_of_further.
Qed.

Lemma lower_no_AZ (s : str) : existsb is_AZ (lower s) = false.
Proof.
  induction s as [|c s IH]; simpl; [done|]. by rewrite lower_char_not_AZ.
Qed.

(** X11: the pitcher is lowercased before it is looked up, the player
    names are not: when every name given has an upper-case letter [A-Z],
    no row is returned. *)
Theorem uppercase_names_match_nothing clock soup names t rows w t' :
  extract_pitcher_starts clock soup names t = (Ok (rows, w), t') ->
  names <> [] -> (forall n, n ∈ names -> existsb is_AZ n = true) ->
  rows = [].
Proof.
  intros H Hne Hup.
  apply extract_pitcher_starts_Ok in H
    as [(_ & -> & _) | (table & dates & _ & _ & -> & _)]; [done|].
  rewrite List_filter_none; [done|].
  intros r _. unfold keeps. rewrite bool_decide_eq_false_2 by done.
  apply bool_decide_eq_false_2. intros Hin.
  apply Hup in Hin. by rewrite lower_no_AZ in Hin.
Qed.

Lemma uppercase_names_match_nothing_witness :
  ([] : list Row) = [].
Proof.
  apply (uppercase_names_match_nothing (at_date 2025 5 1)
           (grid [th "Team"; th "Mon 3/10"] [[td "BOS"; td "@ NYY John Smith (L)"]])
           [py "John Smith"] O [] [] 2%nat).
  - vm_compute. reflexivity.
  - discriminate.
  - intros n Hn. apply list_elem_of_singleton in Hn. subst n. reflexivity.
Defined.

(** X12: when no cell of the data rows is an entry (in particular when
    there are no data rows), the call returns no rows and no warning. *)
Theorem no_entries_no_rows clock soup names t rows w t' table :
  extract_pitcher_starts clock soup names t = (Ok (rows, w), t') ->
  the_table soup = Some table ->
  (forall tr item, tr ∈ data_rows table -> item ∈ row_cells tr ->
                   parse_pitcher_entry item = None) ->
  rows = [] /\ w = [].
Proof.
  intros H Htable Hnone.
  rewrite (extract_pitcher_starts_unfold _ _ _ _ _ Htable) in H.
  destruct (extract_dates_from_headers clock soup t) as [[dates|?] t1]; [|done].
  injection H as <- <- _. split; [|done].
  assert (all_records dates table = []) as ->; [|done].
  destruct (all_records dates table) as [|r l] eqn:Hall; [done|].
  assert (r ∈ all_records dates table) as Hr by (rewrite Hall; apply list_elem_of_here).
  apply elem_of_all_records in Hr as (tr & k & item & e & Htr & _ & Hitem & He & _).
  rewrite (Hnone tr item Htr) in He; [done|].
  by eapply list_elem_of_lookup_2.
Qed.

Lemma no_entries_no_rows_witness :
  ([] : list Row) = [] /\ ([] : list str) = [].
Proof.
  apply (no_entries_no_rows (at_date 2025 5 1)
           (grid [th "Team"; th "Mon 3/10"] []) [] O [] [] 2%nat
           (elem "table" [elem "tbody" [elem "tr" [th "Team"; th "Mon 3/10"]]])).
  - vm_compute. reflexivity.
  - reflexivity.
  - intros tr item Htr. vm_compute in Htr. by apply elem_of_nil in Htr.
Defined.
(** X13: every row has handedness [L] or [R], an opponent of ["@ "] or
    ["v "] and three upper-case letters, a pitcher of letters and
    whitespace with no whitespace at either end, and as date ["Unknown"]
    or a calendar date written [year-mm-dd]. *)
Theorem rows_well_formed clock soup names t rows w t' :
  extract_pitcher_starts clock soup names t = (Ok (rows, w), t') ->
  forall r, r ∈ rows ->
    (Handedness r = py "L" \/ Handedness r = py "R")
    /\ (exists code, length code = 3%nat /\ forallb is_AZ code = true
                     /\ (Opponent r = py "@ " ++ code \/ Opponent r = py "v " ++ code))
    /\ forallb is_name_char (Pitcher r) = true /\ trimmed (Pitcher r)
    /\ (Date r = py "Unknown"
        \/ exists y m d,
             valid_date y m d = true
             /\ Date r = decimal y ++ py "-" ++ two_digits m ++ py "-" ++ two_digits d).
Proof.
  intros H r Hr.
  apply extract_pitcher_starts_Ok in H
    as [(_ & -> & _) | (table & dates & _ & Hd & -> & _)].
  { by apply elem_of_nil in Hr. }
  rewrite list_sort_perm, elem_of_List_filter, elem_of_all_records in Hr.
  destruct Hr as [(tr & k & item & e & _ & _ & _ & He & ->) _].
  apply parse_pitcher_entry_Some in He
    as (away & ws & code & name & h & tail & _ & Hok & _ & ->).
  apply entry_ok_inv in Hok as (_ & Hlen & Hcode & _ & Hname & Hh).
  destruct (strip_decomp name) as (w1 & w2 & E & _ & _ & Htr).
  unfold record_of, entry_parsed.
  cbn [Date Handedness Pitcher Opponent handedness pitcher_name formatted_opponent].
  split_and!.
  - by apply is_LR_cases.
  - exists code. split_and!; [done..|]. destruct away; auto.
  - rewrite E in Hname. apply forallb_app_inv in Hname as [_ Hname].
    by apply forallb_app_inv in Hname as [Hname _].
  - done.
  - destruct (dates !! (k - 1)) as [s|] eqn:Hs; [right|by left].
    rewrite extract_dates_unfold in Hd.
    destruct (header_cells soup) as [ths|]; [|done].
    destruct (header_loop_gen clock ths _ _ _ _ _ Hd _ s Hs)
      as [He | (_ & cell & t1 & _ & Hres)].
    { by rewrite lookup_empty in He. }
    apply resolve_Some in Hres as (m & d & _ & Hv & ->). eauto.
Qed.

Lemma rows_well_formed_witness :
  (Handedness (row "2026-03-10" "L" "John Smith" "@ NYY") = py "L"
   \/ Handedness (row "2026-03-10" "L" "John Smith" "@ NYY") = py "R")
  /\ (exists code, length code = 3%nat /\ forallb is_AZ code = true
        /\ (Opponent (row "2026-03-10" "L" "John Smith" "@ NYY") = py "@ " ++ code
            \/ Opponent (row "2026-03-10" "L" "John Smith" "@ NYY") = py "v " ++ code))
  /\ forallb is_name_char (Pitcher (row "2026-03-10" "L" "John Smith" "@ NYY")) = true
  /\ trimmed (Pitcher (row "2026-03-10" "L" "John Smith" "@ NYY"))
  /\ (Date (row "2026-03-10" "L" "John Smith" "@ NYY") = py "Unknown"
      \/ exists y m d,
           valid_date y m d = true
           /\ Date (row "2026-03-10" "L" "John Smith" "@ NYY")
              = decimal y ++ py "-" ++ two_digits m ++ py "-" ++ two_digits d).
Proof.
  apply (rows_well_formed (at_date 2025 5 1)
           (grid [th "Team"; th "Mon 3/10"] [[td "BOS"; td "@ NYY John Smith (L)"]])
           [] O [row "2026-03-10" "L" "John Smith" "@ NYY"] [] 2%nat).
  - vm_compute. reflexivity.
  - apply list_elem_of_here.
Defined.

(** ** The player names of [main] *)

Lemma split_on_cons sep (s : str) : exists l ls, split_on sep s = l :: ls.
Proof.
  induction s as [|c s (l & ls & E)]; simpl; [eauto|].
  destruct (Ascii.eqb c sep); [eauto|]. rewrite E. eauto.
Qed.

Lemma split_on_forallb (p : ascii -> bool) sep (s : str) :
  p sep = true ->
  forallb p s = forallb (forallb p) (split_on sep s).
Proof.
  intros Hsep. induction s as [|c s IH]; simpl; [done|].
  destruct (Ascii.eqb_spec c sep) as [->|Hne].
  - simpl. by rewrite Hsep, IH.
  - destruct (split_on_cons sep s) as (l & ls & E). rewrite E in *.
    simpl in *. rewrite IH. by rewrite andb_assoc.
Qed.

Lemma split_on_no_sep sep (s l : str) : l ∈ split_on sep s -> sep ∉ l.
Proof.
  revert l. induction s as [|c s IH]; intros l; simpl.
  - intros ->%list_elem_of_singleton. apply not_elem_of_nil.
  - destruct (Ascii.eqb_spec c sep) as [->|Hne].
    + intros [->|Hl]%elem_of_cons; [apply not_elem_of_nil|by apply IH].
    + destruct (split_on_cons sep s) as (l0 & ls & E). rewrite E in *.
      intros [->|Hl]%elem_of_cons.
      * rewrite elem_of_cons. intros [?|?]; [done|].
        by apply (IH l0); [left|].
      * apply IH. by right.
Qed.

Lemma strip_nil_iff (s : str) : strip s = [] <-> forallb is_space s = true.
Proof.
  split; [|apply strip_all_spaces].
  intros H. destruct (strip_decomp s) as (w1 & w2 & E & Hw1 & Hw2 & _).
  rewrite H in E. simpl in E. rewrite E, forallb_app, Hw1, Hw2. done.
Qed.

Lemma nonempty_false (s : str) : nonempty s = false <-> s = [].
Proof. by destruct s. Qed.

Lemma lower_nil_iff (s : str) : lower s = [] <-> s = [].
Proof. by destruct s. Qed.

Lemma elem_of_players_of (text p : str) :
  p ∈ players_of text <->
  exists line, line ∈ split_on newline text /\ strip line <> []
               /\ p = lower (strip line).
Proof.
  unfold players_of. rewrite list_elem_of_fmap. split.
  - intros (line & -> & [Hl Hn]%elem_of_List_filter). exists line.
    split_and!; [done| |done]. by destruct (strip line).
  - intros (line & Hl & Hn & ->). exists line. split; [done|].
    apply elem_of_List_filter. split; [done|]. by destruct (strip line).
Qed.

(** X14: every player name that [main] hands on is non-empty, has no
    whitespace at either end, holds no newline and is in lower case. *)
Theorem players_clean (text p : str) :
  p ∈ players_of text ->
  p <> [] /\ strip p = p /\ lower p = p /\ newline ∉ p.
Proof.
  intros (line & Hl & Hn & ->)%elem_of_players_of. split_and!.
  - by rewrite lower_nil_iff.
  - by rewrite strip_lower, strip_idemp.
  - apply lower_idemp.
  - intros Hin. apply list_elem_of_fmap in Hin as (c & Hc & Hin).
    symmetry in Hc. apply lower_char_newline in Hc. subst c.
    destruct (strip_decomp line) as (w1 & w2 & E & _).
    apply (split_on_no_sep _ _ _ Hl). rewrite E.
    rewrite !elem_of_app. auto.
Qed.

Lemma players_clean_witness :
  py "john smith" <> [] /\ strip (py "john smith") = py "john smith"
  /\ lower (py "john smith") = py "john smith" /\ newline ∉ py "john smith".
Proof.
  apply (players_clean (py "  John Smith  " ++ [newline] ++ py "  ")).
  vm_compute. apply list_elem_of_here.
Defined.

(** X15: no player names are handed on, and so nothing is filtered,
    exactly when the text area holds nothing but whitespace. *)
Theorem players_none_iff_blank (text : str) :
  players_of text = [] <-> forallb is_space text = true.
Proof.
  rewrite (split_on_forallb is_space newline text) by done.
  unfold players_of. split.
  - intros H. apply fmap_nil_inv in H. apply forallb_forall. intros line Hl.
    apply strip_nil_iff, nonempty_false.
    destruct (nonempty (strip line)) eqn:Hn; [|done].
    assert (line ∈ List.filter (fun name => nonempty (strip name))
                      (split_on newline text)) as Hin.
    { apply elem_of_List_filter. split; [by apply list_elem_of_In|done]. }
    rewrite H in Hin. by apply elem_of_nil in Hin.
  - intros H. rewrite List_filter_none; [done|].
    intros line Hl. apply nonempty_false, strip_nil_iff.
    rewrite forallb_forall in H. apply H. by apply list_elem_of_In.
Qed.


(** ** The button of [main] *)

Lemma main_click_Ok clock text soup t shown t' :
  main_click clock text (Some soup) t = (Ok shown, t') ->
  exists rows w,
    extract_pitcher_starts clock soup (players_of text) t = (Ok (rows, w), t')
    /\ shown = map Warning w ++
               match rows with
               | _ :: _ => [Subheader (py "Pitcher Starts"); Dataframe rows]
               | [] => [Warning (py "No pitcher starts found")]
               end.
Proof.
  unfold main_click, bind, ret.
  destruct (extract_pitcher_starts clock soup (players_of text) t)
    as [[[rows w]|e] t1]; [|done].
  intros [= <- <-]. eauto.
Qed.

(** X17: when no document was fetched the button shows nothing more;
    with a document, it shows the table of rows, never an empty one, or
    else the notice that no starts were found, preceded by the warning of
    the missing table when there is no table. *)
Theorem click_feedback clock text html_soup t shown t' :
  main_click clock text html_soup t = (Ok shown, t') ->
  match html_soup with
  | None => shown = []
  | Some soup =>
      (the_table soup = None
       /\ exists msg, shown = [Warning msg; Warning (py "No pitcher starts found")])
      \/ (is_Some (the_table soup)
          /\ (shown = [Warning (py "No pitcher starts found")]
              \/ exists r rows,
                   shown = [Subheader (py "Pitcher Starts"); Dataframe (r :: rows)]))
  end.
Proof.
  destruct html_soup as [soup|]; [|by intros [= <- _]].
  intros (rows & w & H & ->)%main_click_Ok.
  destruct (the_table soup) as [table|] eqn:Htable.
  - right. split; [by eauto|].
    rewrite (extract_pitcher_starts_unfold _ _ _ _ _ Htable) in H.
    destruct (extract_dates_from_headers clock soup t) as [[dates|?] t1]; [|done].
    injection H as <- <- _. simpl.
    destruct (list_sort Date _) as [|r rows]; [by left|right; eauto].
  - left. split; [done|].
    destruct (no_table_warns clock soup (players_of text) t Htable) as [msg Hm].
    rewrite Hm in H. injection H as <- <- _. eauto.
Qed.

Lemma click_feedback_witness :
  (the_table (page []) = None
   /\ exists msg,
        [Warning (py "No table found within the 'table-scroll' div");
         Warning (py "No pitcher starts found")]
        = [Warning msg; Warning (py "No pitcher starts found")])
  \/ (is_Some (the_table (page []))
      /\ ([Warning (py "No table found within the 'table-scroll' div");
           Warning (py "No pitcher starts found")]
          = [Warning (py "No pitcher starts found")]
          \/ exists r rows,
               [Warning (py "No table found within the 'table-scroll' div");
                Warning (py "No pitcher starts found")]
               = [Subheader (py "Pitcher Starts"); Dataframe (r :: rows)])).
Proof.
  apply (click_feedback (at_date 2025 5 1) (py "") (Some (page [])) O _ O).
  vm_compute. reflexivity.
Defined.

(** X18: with a name in the text area, every row of the table shown has
    a pitcher that is not empty and that some line of the text area
    names, up to case and surrounding whitespace. *)
Theorem named_rows_have_names clock text html_soup t shown t' :
  main_click clock text html_soup t = (Ok shown, t') ->
  players_of text <> [] ->
  forall rows r, Dataframe rows ∈ shown -> r ∈ rows ->
    Pitcher r <> []
    /\ exists line, line ∈ split_on newline text
                    /\ lower (strip line) = lower (Pitcher r).
Proof.
  intros H Hne rows r Hshown Hr.
  destruct html_soup as [soup|].
  2:{ injection H as <- _. by apply elem_of_nil in Hshown. }
  apply main_click_Ok in H as (rows' & w & H & ->).
  assert (rows = rows') as <-.
  { apply elem_of_app in Hshown as [Hw | Hd].
    - apply list_elem_of_fmap in Hw as (? & ? & _). done.
    - destruct rows' as [|r' rows']; repeat (apply elem_of_cons in Hd as [Hd|Hd]);
        try done; try (by apply elem_of_nil in Hd). by injection Hd. }
  apply extract_pitcher_starts_Ok in H
    as [(_ & -> & _) | (table & dates & _ & _ & -> & _)].
  { by apply elem_of_nil in Hr. }
  rewrite list_sort_perm, elem_of_List_filter in Hr. destruct Hr as [_ Hk].
  unfold keeps in Hk. rewrite bool_decide_eq_false_2 in Hk by done.
  cbn [orb] in Hk. apply bool_decide_eq_true in Hk.
  apply elem_of_players_of in Hk as (line & Hl & Hn & E).
  split; [|by eauto].
  intros Hp. rewrite Hp in E. apply Hn, lower_nil_iff. by rewrite <- E.
Qed.

Lemma named_rows_have_names_witness :
  Pitcher (row "2026-03-10" "R" "Jane Doe" "v BOS") <> []
  /\ exists line, line ∈ split_on newline (py " JANE DOE ")
                  /\ lower (strip line)
                     = lower (Pitcher (row "2026-03-10" "R" "Jane Doe" "v BOS")).
Proof.
  refine (named_rows_have_names (at_date 2025 5 1) (py " JANE DOE ")
            (Some (grid [th "Team"; th "Mon 3/10"]
                        [[td "BOS"; td "@ NYY John Smith (L)"];
                         [td "NYY"; td "BOS Jane Doe (R)"]]))
            O [Subheader (py "Pitcher Starts");
               Dataframe [row "2026-03-10" "R" "Jane Doe" "v BOS"]] 2%nat _ _
            [row "2026-03-10" "R" "Jane Doe" "v BOS"]
            (row "2026-03-10" "R" "Jane Doe" "v BOS") _ _).
  - vm_compute. reflexivity.
  - vm_compute. discriminate.
  - apply list_elem_of_further, list_elem_of_here.
  - apply list_elem_of_here.
Defined.

(** X19: the button fails only when a document was fetched that has the
    table: with [AttributeError] when the table has no header row, with
    [OverflowError] otherwise; a failed fetch or a missing table never
    make it fail. *)
Theorem click_failures clock text html_soup t e t' :
  main_click clock text html_soup t = (Raise e, t') ->
  exists soup,
    html_soup = Some soup /\ is_Some (the_table soup)
    /\ ((e = AttributeError /\ header_cells soup = None)
        \/ (e = OverflowError /\ is_Some (header_cells soup))).
Proof.
  destruct html_soup as [soup|]; [|done].
  unfold main_click, bind, ret. intros H. exists soup. split; [done|].
  destruct (the_table soup) as [table|] eqn:Htable.
  - split; [by eauto|].
    rewrite (extract_pitcher_starts_unfold _ _ _ _ _ Htable) in H.
    rewrite extract_dates_unfold in H.
    destruct (header_cells soup) as [ths|].
    + right. split; [|by eauto].
      destruct (for_each _ _ _ t) as [[dates|e1] t1] eqn:Hl; [done|].
      injection H as <- _. by apply header_loop_raise in Hl as [-> _].
    + left. by injection H as <- _.
  - destruct (no_table_warns clock soup (players_of text) t Htable) as [msg Hm].
    by rewrite Hm in H.
Qed.

Lemma click_failures_witness :
  exists soup,
    Some (page [elem "table" [elem "tr" [th "Team"]]]) = Some soup
    /\ is_Some (the_table soup)
    /\ ((AttributeError = AttributeError /\ header_cells soup = None)
        \/ (AttributeError = OverflowError /\ is_Some (header_cells soup))).
Proof.
  apply (click_failures (at_date 2025 5 1) (py "john smith")
           (Some (page [elem "table" [elem "tr" [th "Team"]]])) O AttributeError O).
  vm_compute. reflexivity.
Defined.

Lemma blank_name_parsed_witness :
  parse_pitcher_entry (py "NYY" ++ py "  " ++ py "(" ++ ["L"%char] ++ py ")")
  = Some {| handedness := ["L"%char]; pitcher_name := [];
            formatted_opponent := py "v " ++ py "NYY" |}.
Proof.
  apply (blank_name_parsed (py "NYY") (py "  ") "L"); reflexivity.
Defined.
